(** * server.js: the survey backend, embedded and verified

    The Express handlers of [server.js] are embedded as functions over an
    explicit server state: the in-memory [conversations] object and the five
    SQLite tables.  The services the file only calls (the SQLite driver,
    the clock and the language-model endpoint behind [fetch]) appear as an
    environment record whose answers the handlers consume.

    The store is given twice.  The first part follows the own members of
    [conversations] and of the request body, which is all there is to them
    as long as no key is a name that objects inherit; the part [Chain]
    follows the lookups along the prototype chain as well, and the statements
    about all requests are made there. *)

From stdpp Require Import base option list strings gmap pretty.
From Stdlib Require Import ZArith Lia Ascii.

Open Scope string_scope.
Open Scope Z_scope.
Open Scope list_scope.

(** ** JavaScript values *)

Module Js.

(** Values that [express.json()] and [response.json()] can produce, plus
    [undefined] for a property that is not there.  Numbers are the integral
    ones that a double holds exactly and prints in full (below 2^53 in
    magnitude); a parsed object is plain data (no member named
    [toString]). *)
#[warnings="-register-all"]
Inductive jsval : Type :=
  | JUndefined
  | JNull
  | JBool (b : bool)
  | JNum (n : Z)
  | JStr (s : string)
  | JArr (items : list jsval)
  | JObj (fields : list (string * jsval)).

(** ToBoolean, as used by [!x] and [x ? a : b]. *)
Definition truthy (v : jsval) : bool :=
  match v with
  | JUndefined | JNull => false
  | JBool b => b
  | JNum n => negb (n =? 0)
  | JStr s => negb (String.eqb s "")
  | JArr _ | JObj _ => true
  end.

Definition nl : string := String "010"%char "".

(** ToString, as used by template literals and by property keys.  An array
    joins its elements with commas, printing [null] and [undefined] as the
    empty string; a plain object prints as [[object Object]]. *)
Fixpoint to_string (v : jsval) : string :=
  match v with
  | JUndefined => "undefined"
  | JNull => "null"
  | JBool true => "true"
  | JBool false => "false"
  | JNum n => pretty n
  | JStr s => s
  | JArr items =>
      let elem x :=
        match x with
        | JUndefined | JNull => ""
        | _ => to_string x
        end in
      (fix join (xs : list jsval) : string :=
         match xs with
         | [] => ""
         | [x] => elem x
         | x :: rest => elem x +:+ "," +:+ join rest
         end) items
  | JObj _ => "[object Object]"
  end.

(** Own property of a parsed object; [undefined] when it is not there. *)
Fixpoint own (fields : list (string * jsval)) (k : string) : jsval :=
  match fields with
  | [] => JUndefined
  | (k', v) :: rest => if String.eqb k' k then v else own rest k
  end.

(** [v.k] for the property names the server reads ([message], [content] and
    the body fields): none of them is defined by a built-in prototype, so every
    value but an object answers [undefined], and reading a property of
    [undefined] or [null] throws a TypeError ([None]). *)
Definition member (v : jsval) (k : string) : option jsval :=
  match v with
  | JUndefined | JNull => None
  | JObj fields => Some (own fields k)
  | _ => Some JUndefined
  end.

(** [const { k } = req.body], the body being an object or an array: the
    own member of the body ([Chain.read] goes on to the prototype chain). *)
Definition field (body : jsval) (k : string) : jsval :=
  default JUndefined (member body k).

(** Strict equality of two values as data. *)
Fixpoint eqb (a b : jsval) : bool :=
  match a, b with
  | JUndefined, JUndefined => true
  | JNull, JNull => true
  | JBool x, JBool y => Bool.eqb x y
  | JNum x, JNum y => x =? y
  | JStr x, JStr y => String.eqb x y
  | JArr xs, JArr ys =>
      (fix all2 (xs ys : list jsval) : bool :=
         match xs, ys with
         | [], [] => true
         | x :: xs', y :: ys' => eqb x y && all2 xs' ys'
         | _, _ => false
         end) xs ys
  | JObj xs, JObj ys =>
      (fix all2 (xs ys : list (string * jsval)) : bool :=
         match xs, ys with
         | [], [] => true
         | (k, x) :: xs', (k', y) :: ys' =>
             String.eqb k k' && eqb x y && all2 xs' ys'
         | _, _ => false
         end) xs ys
  | _, _ => false
  end.

End Js.

Import Js.

Section JsvalInduction.
Variable P : jsval → Prop.
Hypothesis P_undefined : P JUndefined.
Hypothesis P_null : P JNull.
Hypothesis P_bool : ∀ b, P (JBool b).
Hypothesis P_num : ∀ n, P (JNum n).
Hypothesis P_str : ∀ s, P (JStr s).
Hypothesis P_arr : ∀ items, Forall P items → P (JArr items).
Hypothesis P_obj : ∀ fields, Forall (λ kv, P kv.2) fields → P (JObj fields).

(** Induction over values that also covers the elements of arrays and the
    members of objects. *)
Fixpoint jsval_nested_ind (v : jsval) : P v :=
  match v with
  | JUndefined => P_undefined
  | JNull => P_null
  | JBool b => P_bool b
  | JNum n => P_num n
  | JStr s => P_str s
  | JArr items =>
      P_arr items
        ((fix go (xs : list jsval) : Forall P xs :=
            match xs with
            | [] => List.Forall_nil P
            | x :: rest => List.Forall_cons P x rest (jsval_nested_ind x) (go rest)
            end) items)
  | JObj fields =>
      P_obj fields
        ((fix go (xs : list (string * jsval)) : Forall (λ kv, P kv.2) xs :=
            match xs with
            | [] => List.Forall_nil _
            | (k, x) :: rest =>
                List.Forall_cons (λ kv, P kv.2) (k, x) rest
                  (jsval_nested_ind x) (go rest)
            end) fields)
  end.
End JsvalInduction.

(** ** Server state *)

(** One element of a conversation array: [{ role, content }]. *)
Inductive Role : Type := system | user | assistant.

Record Turn : Type := mkTurn { role : Role; content : jsval }.

(** [conversations[userId][scenario] = message array]: a JS object used as a
    two-level map, keyed by the property keys of [userId] and [scenario].
    This is the map of own members; what a lookup finds when the key is a
    name that objects inherit is followed in [Chain]. *)
Abbreviation Conversations := (gmap string (gmap string (list Turn))).

(** Rows of the five tables of [survey.db], each column holding the value
    handed to [run] for it. *)
Record ParticipantRow : Type := mkParticipant {
  pt_participant_id : jsval;
  pt_created_at : jsval
}.

Record MessageRow : Type := mkMessage {
  msg_id : Z;
  msg_participant_id : jsval;
  msg_scenario : jsval;
  msg_role : jsval;
  msg_content : jsval;
  msg_timestamp : jsval
}.

Record SurveyRow : Type := mkSurvey {
  sv_id : Z;
  sv_participant_id : jsval;
  sv_scenario : jsval;
  sv_draft_text : jsval;
  sv_used_ai_self_report : jsval;
  sv_used_ai_behavioral : jsval;
  sv_perceived_risk : jsval;
  sv_authenticity : jsval;
  sv_timestamp : jsval
}.

Record DemographicsRow : Type := mkDemographics {
  dm_participant_id : jsval;
  dm_native_language : jsval;
  dm_english_proficiency : jsval;
  dm_years_in_us : jsval;
  dm_ai_usage_frequency : jsval
}.

Record DraftRow : Type := mkDraft {
  fd_id : Z;
  fd_participant_id : jsval;
  fd_scenario : jsval;
  fd_draft_text : jsval;
  fd_timestamp : jsval
}.

(** The database file: the tables in insertion order, and for each
    AUTOINCREMENT table the largest id handed out so far. *)
Record Database : Type := mkDatabase {
  participants : list ParticipantRow;
  messages : list MessageRow;
  messages_seq : Z;
  survey_responses : list SurveyRow;
  survey_responses_seq : Z;
  demographics : list DemographicsRow;
  final_drafts : list DraftRow;
  final_drafts_seq : Z
}.

(** The four prepared statements of the file, with the arguments of [run]. *)
Inductive Stmt : Type :=
  | InsertOrReplaceDemographics
      (participant_id native_language english_proficiency years_in_us
         ai_usage_frequency : jsval)
  | InsertSurveyResponse
      (participant_id scenario draft_text used_ai_self_report
         used_ai_behavioral perceived_risk authenticity timestamp : jsval)
  | InsertMessage (participant_id scenario role content timestamp : jsval)
  | InsertFinalDraft (participant_id scenario draft_text timestamp : jsval).

(** What a completed [run] does to the tables.  INSERT appends a row under
    the next id; INSERT OR REPLACE first deletes the row holding the same
    primary key.  Rows and keys are those of the values handed to [run]; the
    form SQLite gives a value when it stores it in a column is not followed. *)
Definition exec (s : Stmt) (d : Database) : Database :=
  match s with
  | InsertOrReplaceDemographics pid lang prof years freq =>
      mkDatabase (participants d) (messages d) (messages_seq d)
        (survey_responses d) (survey_responses_seq d)
        (filter (λ r, eqb (dm_participant_id r) pid = false) (demographics d)
           ++ [mkDemographics pid lang prof years freq])
        (final_drafts d) (final_drafts_seq d)
  | InsertSurveyResponse pid scen draft self behav risk auth ts =>
      mkDatabase (participants d) (messages d) (messages_seq d)
        (survey_responses d
           ++ [mkSurvey (survey_responses_seq d + 1) pid scen draft self
                 behav risk auth ts])
        (survey_responses_seq d + 1)
        (demographics d) (final_drafts d) (final_drafts_seq d)
  | InsertMessage pid scen r c ts =>
      mkDatabase (participants d)
        (messages d ++ [mkMessage (messages_seq d + 1) pid scen r c ts])
        (messages_seq d + 1)
        (survey_responses d) (survey_responses_seq d)
        (demographics d) (final_drafts d) (final_drafts_seq d)
  | InsertFinalDraft pid scen draft ts =>
      mkDatabase (participants d) (messages d) (messages_seq d)
        (survey_responses d) (survey_responses_seq d) (demographics d)
        (final_drafts d ++ [mkDraft (final_drafts_seq d + 1) pid scen draft ts])
        (final_drafts_seq d + 1)
  end.

(** ** The services the handlers call *)

(** Body of the POST to [http://localhost:11434/api/chat]. *)
Record GatewayRequest : Type := mkGatewayRequest {
  model : string;
  gw_messages : list Turn;
  stream : bool
}.

(** How [await fetch(...)] followed by [await response.json()] ends: one of
    the two rejects with an error, or the body parses to [data]. *)
Inductive GatewayOutcome : Type :=
  | GwThrow (err : string)
  | GwData (data : jsval).

(** The surroundings of one request: the answer of the language-model
    endpoint, the reading of [new Date().toISOString()], and whether the
    driver completes a [run] or throws. *)
Record Env : Type := mkEnv {
  gateway : GatewayRequest → GatewayOutcome;
  now : string;
  accepts : Stmt → bool
}.

(** [db.prepare(sql).run(args)]: the new tables, or [None] when it throws. *)
Definition run (e : Env) (s : Stmt) (d : Database) : option Database :=
  if accepts e s then Some (exec s d) else None.

Record World : Type := mkWorld {
  conversations : Conversations;
  db : Database
}.

(** What the client gets: [res.status(n).json(body)] ([res.json] is status
    200), or the framework's own error page when the handler threw. *)
Inductive Response : Type :=
  | Json (status : Z) (body : jsval)
  | Unhandled.

Definition set_conversations (c : Conversations) (w : World) : World :=
  mkWorld c (db w).

Definition set_db (d : Database) (w : World) : World :=
  mkWorld (conversations w) d.

(** ** Conversation memory *)

(** The system instruction, a template filled with [scenario]. *)
Definition system_prompt (scenario : jsval) : string :=
  "You are assisting a multilingual student in drafting academic communication for this scenario: "
  +:+ to_string scenario +:+ "." +:+ nl
  +:+ "Provide tone guidance and revisions only." +:+ nl
  +:+ "Do not engage in unrelated conversation." +:+ nl
  +:+ "Keep responses concise and focused on clarity, professionalism, and tone improvement.".

(** [conversations[userId][scenario]], when both levels are there. *)
Definition convo_of (c : Conversations) (userId scenario : jsval)
    : option (list Turn) :=
  m ← c !! to_string userId; m !! to_string scenario.

Definition initializeConversation (userId scenario : jsval)
    (c : Conversations) : Conversations :=
  let c1 :=
    match c !! to_string userId with
    | None => <[to_string userId := ∅]> c
    | Some _ => c
    end in
  <[to_string userId :=
      <[to_string scenario := [mkTurn system (JStr (system_prompt scenario))]]>
        (default ∅ (c1 !! to_string userId))]> c1.

(** The guard of the chat handler, over own members: a conversation is
    created only when [conversations[userId]] or
    [conversations[userId][scenario]] is missing (an object or an array, once
    there, is truthy). *)
Definition ensure (userId scenario : jsval) (c : Conversations)
    : Conversations :=
  match convo_of c userId scenario with
  | None => initializeConversation userId scenario c
  | Some _ => c
  end.

(** [convo.push(turn)], [convo] being the array the store holds for the key:
    the push is seen through the store. *)
Definition push (userId scenario : jsval) (t : Turn) (c : Conversations)
    : Conversations :=
  match c !! to_string userId with
  | Some m =>
      match m !! to_string scenario with
      | Some turns =>
          <[to_string userId := <[to_string scenario := turns ++ [t]]> m]> c
      | None => c
      end
  | None => c
  end.

(** ** Handlers *)

Definition error_body (msg : string) : jsval := JObj [("error", JStr msg)].
Definition saved : Response := Json 200 (JObj [("status", JStr "saved")]).

(** POST /demographics *)
Definition demographics_handler (e : Env) (body : jsval) (w : World)
    : Response * World :=
  let participant_id := field body "participant_id" in
  let native_language := field body "native_language" in
  let english_proficiency := field body "english_proficiency" in
  let years_in_us := field body "years_in_us" in
  let ai_usage_frequency := field body "ai_usage_frequency" in
  if negb (truthy participant_id) then
    (Json 400 (error_body "Missing participant_id"), w)
  else
    match run e (InsertOrReplaceDemographics participant_id native_language
                   english_proficiency years_in_us ai_usage_frequency) (db w) with
    | Some d => (saved, set_db d w)
    | None => (Unhandled, w)
    end.

(** POST /survey-response *)
Definition survey_response_handler (e : Env) (body : jsval) (w : World)
    : Response * World :=
  let participant_id := field body "participant_id" in
  let scenario := field body "scenario" in
  let draft_text := field body "draft_text" in
  let used_ai_self_report := field body "used_ai_self_report" in
  let used_ai_behavioral := field body "used_ai_behavioral" in
  let perceived_risk := field body "perceived_risk" in
  let authenticity := field body "authenticity" in
  if negb (truthy participant_id) || negb (truthy scenario) then
    (Json 400 (error_body "Missing required fields"), w)
  else
    match run e (InsertSurveyResponse participant_id scenario draft_text
                   used_ai_self_report
                   (if truthy used_ai_behavioral then JNum 1 else JNum 0)
                   perceived_risk authenticity (JStr (now e))) (db w) with
    | Some d => (saved, set_db d w)
    | None => (Unhandled, w)
    end.

(** POST /save-draft *)
Definition save_draft_handler (e : Env) (body : jsval) (w : World)
    : Response * World :=
  let participant_id := field body "participant_id" in
  let scenario := field body "scenario" in
  let draft_text := field body "draft_text" in
  if negb (truthy participant_id) || negb (truthy scenario)
     || negb (truthy draft_text) then
    (Json 400 (error_body "Missing required fields"), w)
  else
    match run e (InsertFinalDraft participant_id scenario draft_text
                   (JStr (now e))) (db w) with
    | Some d => (saved, set_db d w)
    | None => (Json 500 (error_body "Failed to save draft"), w)
    end.

(** The content of the user turn pushed on the conversation. *)
Definition user_turn_text (draft message : jsval) : string :=
  "Draft:" +:+ nl +:+ to_string draft +:+ nl +:+ nl
  +:+ "User request:" +:+ nl +:+ to_string message.

(** The content of the user row written to [messages]. *)
Definition user_audit_text (draft message : jsval) : string :=
  "Draft:" +:+ nl +:+ to_string draft +:+ nl
  +:+ "Request:" +:+ nl +:+ to_string message.

(** The locals of the chat handler that live across its [await]. *)
Record ChatFrame : Type := mkChatFrame {
  cf_userId : jsval;
  cf_message : jsval;
  cf_scenario : jsval;
  cf_draft : jsval
}.

(** POST /chat up to [await fetch(...)]: either the handler has answered
    already, or it waits for the gateway with its request sent. *)
Inductive ChatStart : Type :=
  | Answered (r : Response) (w : World)
  | Awaiting (req : GatewayRequest) (k : ChatFrame) (w : World).

Definition chat_begin (body : jsval) (w : World) : ChatStart :=
  let userId := field body "userId" in
  let message := field body "message" in
  let scenario := field body "scenario" in
  let draft := field body "draft" in
  if negb (truthy userId) || negb (truthy message) || negb (truthy scenario)
  then
    Answered (Json 400 (error_body "Missing userId, message, or scenario")) w
  else
    let c1 := ensure userId scenario (conversations w) in
    let c2 :=
      push userId scenario
        (mkTurn user (JStr (user_turn_text draft message))) c1 in
    Awaiting
      (mkGatewayRequest "llama3" (default [] (convo_of c2 userId scenario))
         false)
      (mkChatFrame userId message scenario draft)
      (set_conversations c2 w).

(** [data.message.content]; [None] when the access throws. *)
Definition reply_of (data : jsval) : option jsval :=
  m ← member data "message"; member m "content".

Definition chat_failed : Response := Json 500 (error_body "Chat failed").

(** POST /chat from the point where the awaited gateway call has ended: the
    rest of the [try] block and its [catch] (whose [console.error] only
    writes to the log). *)
Definition chat_end (e : Env) (k : ChatFrame) (out : GatewayOutcome)
    (w : World) : Response * World :=
  match out with
  | GwThrow _ => (chat_failed, w)
  | GwData data =>
      match reply_of data with
      | None => (chat_failed, w)
      | Some botReply =>
          let w1 :=
            set_conversations
              (push (cf_userId k) (cf_scenario k) (mkTurn assistant botReply)
                 (conversations w)) w in
          let timestamp := JStr (now e) in
          match run e (InsertMessage (cf_userId k) (cf_scenario k)
                         (JStr "user")
                         (JStr (user_audit_text (cf_draft k) (cf_message k)))
                         timestamp) (db w1) with
          | None => (chat_failed, w1)
          | Some d1 =>
              match run e (InsertMessage (cf_userId k) (cf_scenario k)
                             (JStr "assistant") botReply timestamp) d1 with
              | None => (chat_failed, set_db d1 w1)
              | Some d2 => (Json 200 (JObj [("reply", botReply)]), set_db d2 w1)
              end
          end
      end
  end.

(** POST /chat served without another request running during the [await]. *)
Definition chat_handler (e : Env) (body : jsval) (w : World)
    : Response * World :=
  match chat_begin body w with
  | Answered r w' => (r, w')
  | Awaiting req k w' => chat_end e k (gateway e req) w'
  end.

(** ** The server as a transition system *)

(** [app.post(path, handler)]: the four routes that take a JSON body. *)
Inductive Endpoint : Type := Demographics | SurveyResponse | Chat | SaveDraft.

Definition handle (ep : Endpoint) : Env → jsval → World → Response * World :=
  match ep with
  | Demographics => demographics_handler
  | SurveyResponse => survey_response_handler
  | Chat => chat_handler
  | SaveDraft => save_draft_handler
  end.

(** The running process: its state and the chat handlers suspended at
    their [await]. *)
Record Server : Type := mkServer {
  world : World;
  inflight : list ChatFrame
}.

(** [let conversations = {}] over whatever [survey.db] holds at start. *)
Definition boot (d : Database) : Server := mkServer (mkWorld ∅ d) [].

(** One turn of the event loop.  A synchronous handler runs to its end; a
    chat handler runs to its [await] and, once the gateway call has ended,
    from there to its end, with other handlers free to run in between. *)
Inductive step : Server → Server → Prop :=
  | step_demographics e body s :
      step s (mkServer (demographics_handler e body (world s)).2 (inflight s))
  | step_survey_response e body s :
      step s
        (mkServer (survey_response_handler e body (world s)).2 (inflight s))
  | step_save_draft e body s :
      step s (mkServer (save_draft_handler e body (world s)).2 (inflight s))
  | step_chat_answered body s r w' :
      chat_begin body (world s) = Answered r w' →
      step s (mkServer w' (inflight s))
  | step_chat_awaiting body s req k w' :
      chat_begin body (world s) = Awaiting req k w' →
      step s (mkServer w' (k :: inflight s))
  | step_chat_resumed e out k before after s :
      inflight s = before ++ k :: after →
      step s (mkServer (chat_end e k out (world s)).2 (before ++ after)).

Definition reachable (d : Database) (s : Server) : Prop := rtc step (boot d) s.

(** ** Vocabulary of the statements *)

(** The store with the array under the key of [userId] and [scenario] set
    to [turns], everything else as in [c]. *)
Definition with_convo (userId scenario : jsval) (turns : list Turn)
    (c : Conversations) : Conversations :=
  <[to_string userId :=
      <[to_string scenario := turns]> (default ∅ (c !! to_string userId))]> c.

Definition system_turn (scenario : jsval) : Turn :=
  mkTurn system (JStr (system_prompt scenario)).

Definition user_turn (draft message : jsval) : Turn :=
  mkTurn user (JStr (user_turn_text draft message)).

(** The conversation a chat request finds: the stored one, or the fresh one
    the handler creates. *)
Definition history (w : World) (userId scenario : jsval) : list Turn :=
  default [system_turn scenario] (convo_of (conversations w) userId scenario).

(** The request passes the validation of POST /chat. *)
Definition chat_valid (body : jsval) : Prop :=
  truthy (field body "userId") = true ∧
  truthy (field body "message") = true ∧
  truthy (field body "scenario") = true.

(** The driver completes every [run] of the request. *)
Definition store_up (e : Env) : Prop := ∀ s, accepts e s = true.

(** The gateway call ends in the [catch]: an error was thrown, or reading
    [data.message.content] throws ([data] or [data.message] is null or
    undefined). *)
Definition gateway_failed (out : GatewayOutcome) : Prop :=
  match out with
  | GwThrow _ => True
  | GwData data => reply_of data = None
  end.

(** The tables after [rows] were appended to [messages]. *)
Definition with_messages (rows : list MessageRow) (d : Database) : Database :=
  mkDatabase (participants d) (messages d ++ rows)
    (messages_seq d + Z.of_nat (length rows))
    (survey_responses d) (survey_responses_seq d)
    (demographics d) (final_drafts d) (final_drafts_seq d).

(** The required fields of each route. *)
Definition required (ep : Endpoint) : list string :=
  match ep with
  | Demographics => ["participant_id"]
  | SurveyResponse => ["participant_id"; "scenario"]
  | Chat => ["userId"; "message"; "scenario"]
  | SaveDraft => ["participant_id"; "scenario"; "draft_text"]
  end.

(** The demographics rows stored for a participant id. *)
Definition demographics_of (pid : jsval) (d : Database) : list DemographicsRow :=
  filter (λ r, eqb (dm_participant_id r) pid = true) (demographics d).

(** Serving a list of requests of one route, one after the other. *)
Fixpoint serve (ep : Endpoint) (reqs : list (Env * jsval)) (w : World) : World :=
  match reqs with
  | [] => w
  | (e, body) :: rest => serve ep rest (handle ep e body w).2
  end.

(** A stored conversation opens with the system instruction of its
    scenario key. *)
Definition starts_with_system (sk : string) (turns : list Turn) : Prop :=
  ∃ scenario rest,
    to_string scenario = sk ∧ turns = system_turn scenario :: rest.

Definition well_seeded (c : Conversations) : Prop :=
  ∀ uk sk turns,
    (c !! uk) ≫= (.!! sk) = Some turns → starts_with_system sk turns.

(** Every suspended chat handler holds an array that is in the store. *)
Definition frames_stored (s : Server) : Prop :=
  ∀ k, k ∈ inflight s →
    is_Some (convo_of (conversations (world s)) (cf_userId k) (cf_scenario k)).

(** The last exchange of a conversation is mirrored by the last two rows of
    [messages], content for content. *)
Definition audit_mirrors (w : World) (userId scenario : jsval) : Prop :=
  ∃ turns u a rows ru ra,
    convo_of (conversations w) userId scenario = Some (turns ++ [u; a]) ∧
    messages (db w) = rows ++ [ru; ra] ∧
    msg_content ru = content u ∧ msg_content ra = content a.

(** The [participants] table holds a record for the id. *)
Definition participant_recorded (pid : jsval) (d : Database) : Prop :=
  ∃ r, r ∈ participants d ∧ pt_participant_id r = pid.

(** ** Sample requests *)

Module Sample.

Definition empty_db : Database := mkDatabase [] [] 0 [] 0 [] [] 0.

Definition fresh : World := mkWorld ∅ empty_db.

Definition chat_body : jsval :=
  JObj [("userId", JStr "p1"); ("message", JStr "make this more formal");
        ("scenario", JStr "email_to_professor");
        ("draft", JStr "hey can i get extension")].


Definition gateway_data : jsval :=
  JObj [("model", JStr "llama3");
        ("message",
         JObj [("role", JStr "assistant"); ("content", JStr "Certainly...")]);
        ("done", JBool true)].

Definition clock : string := "2024-05-01T10:00:00.000Z".

(** The gateway answers, the driver completes every [run]. *)
Definition env_ok : Env := mkEnv (λ _, GwData gateway_data) clock (λ _, true).

(** The gateway is down. *)
Definition env_down : Env :=
  mkEnv (λ _, GwThrow "connect ECONNREFUSED 127.0.0.1:11434") clock (λ _, true).

Definition demographics_body (proficiency : Z) : jsval :=
  JObj [("participant_id", JStr "p1"); ("native_language", JStr "es");
        ("english_proficiency", JNum proficiency); ("years_in_us", JNum 2);
        ("ai_usage_frequency", JNum 3)].

Definition survey_body : jsval :=
  JObj [("participant_id", JStr "p1"); ("scenario", JStr "email_to_professor");
        ("draft_text", JStr "Dear Professor"); ("used_ai_self_report", JStr "yes");
        ("used_ai_behavioral", JBool true); ("perceived_risk", JNum 2);
        ("authenticity", JNum 4)].

Definition no_id_body : jsval := JObj [("native_language", JStr "es")].

End Sample.

(** ** Further vocabulary *)


(** Every conversation of [c] is still in [c'], possibly with more turns
    after it. *)
Definition grows (c c' : Conversations) : Prop :=
  ∀ userId scenario turns,
    convo_of c userId scenario = Some turns →
    ∃ tail, convo_of c' userId scenario = Some (turns ++ tail).

(** The three append-only tables of [d'] are those of [d], possibly with
    more rows after them. *)
Definition extends (d d' : Database) : Prop :=
  (∃ rows, messages d' = messages d ++ rows) ∧
  (∃ rows, survey_responses d' = survey_responses d ++ rows) ∧
  (∃ rows, final_drafts d' = final_drafts d ++ rows).

(** Running statements one after the other. *)
Definition execs (stmts : list Stmt) (d : Database) : Database :=
  foldl (λ d s, exec s d) d stmts.

(** The statements POST /survey-response, POST /demographics and
    POST /save-draft run. *)
Definition survey_stmt (e : Env) (body : jsval) : Stmt :=
  InsertSurveyResponse (field body "participant_id") (field body "scenario")
    (field body "draft_text") (field body "used_ai_self_report")
    (if truthy (field body "used_ai_behavioral") then JNum 1 else JNum 0)
    (field body "perceived_risk") (field body "authenticity") (JStr (now e)).

Definition demographics_stmt (body : jsval) : Stmt :=
  InsertOrReplaceDemographics (field body "participant_id")
    (field body "native_language") (field body "english_proficiency")
    (field body "years_in_us") (field body "ai_usage_frequency").

Definition draft_stmt (e : Env) (body : jsval) : Stmt :=
  InsertFinalDraft (field body "participant_id") (field body "scenario")
    (field body "draft_text") (JStr (now e)).

(** The number of rows in the table a route writes. *)
Definition stored (ep : Endpoint) (d : Database) : nat :=
  match ep with
  | Demographics => length (demographics d)
  | SurveyResponse => length (survey_responses d)
  | Chat => length (messages d)
  | SaveDraft => length (final_drafts d)
  end.

(** All required fields of the route are truthy. *)
Definition passes (ep : Endpoint) (body : jsval) : bool :=
  forallb (λ f, truthy (field body f)) (required ep).

(** A survey or draft submission that passes validation and whose write the
    driver completes. *)
Definition lands (ep : Endpoint) (req : Env * jsval) : bool :=
  passes ep req.2 &&
  match ep with
  | SurveyResponse => accepts req.1 (survey_stmt req.1 req.2)
  | SaveDraft => accepts req.1 (draft_stmt req.1 req.2)
  | _ => false
  end.

(** ** More sample requests *)

Module Cases.

(** The driver throws on every [run]. *)
Definition env_store_down : Env :=
  mkEnv (λ _, GwData Sample.gateway_data) Sample.clock (λ _, false).

(** The driver completes the user row and throws on the assistant row. *)
Definition env_second_write_fails : Env :=
  mkEnv (λ _, GwData Sample.gateway_data) Sample.clock
    (λ s, match s with
          | InsertMessage _ _ (JStr "assistant") _ _ => false
          | _ => true
          end).


Definition draft_body : jsval :=
  JObj [("participant_id", JStr "p1"); ("scenario", JStr "email_to_professor");
        ("draft_text", JStr "Dear Professor")].

Definition other_chat_body : jsval :=
  JObj [("userId", JStr "p2"); ("message", JStr "shorter please");
        ("scenario", JStr "email_to_professor"); ("draft", JStr "hello")].

Definition second_chat_body : jsval :=
  JObj [("userId", JStr "p1"); ("message", JStr "shorter please");
        ("scenario", JStr "email_to_professor"); ("draft", JStr "hello")].

End Cases.

(** ** The store with its prototype chain *)

(** [conversations] and the user objects in it are plain objects, so a
    lookup that finds no own member goes on to [Object.prototype]; the parsed
    request body is read the same way.  This part keeps the members the
    handlers can come to write there, and says so where an answer depends on
    a member of a built-in object that it does not describe. *)
Module Chain.

(** The function members of [Object.prototype]; next to them it has the
    accessor [__proto__]. *)
Definition object_methods : list string :=
  ["constructor"; "__defineGetter__"; "__defineSetter__"; "hasOwnProperty";
   "__lookupGetter__"; "__lookupSetter__"; "isPrototypeOf";
   "propertyIsEnumerable"; "toString"; "valueOf"; "toLocaleString"].

Definition is_method (k : string) : bool :=
  bool_decide (k ∈ object_methods).

Definition is_proto (k : string) : bool := String.eqb k "__proto__".

(** The objects [initializeConversation] and [push] can reach: the own
    members of [conversations] (user objects with their own arrays), the arrays
    assigned to members of [Object.prototype], the elements pushed on
    [Array.prototype], and the tables. *)
Record State : Type := mkState {
  users : Conversations;
  on_object_proto : gmap string (list Turn);
  on_array_proto : list Turn;
  tables : Database
}.

(** The array a handler holds in [convo]. *)
Inductive Target : Type :=
  | OwnArray (uk sk : string)
  | SharedArray (sk : string)
  | ArrayProto.

#[global] Instance target_eq_dec : EqDecision Target.
Proof. solve_decision. Defined.

Definition array_at (s : State) (t : Target) : option (list Turn) :=
  match t with
  | OwnArray uk sk => m ← users s !! uk; m !! sk
  | SharedArray sk => on_object_proto s !! sk
  | ArrayProto => Some (on_array_proto s)
  end.

(** [convo.push(turn)] *)
Definition push_at (t : Target) (turn : Turn) (s : State) : State :=
  match t with
  | OwnArray uk sk =>
      match users s !! uk with
      | Some m =>
          match m !! sk with
          | Some turns =>
              mkState (<[uk := <[sk := turns ++ [turn]]> m]> (users s))
                (on_object_proto s) (on_array_proto s) (tables s)
          | None => s
          end
      | None => s
      end
  | SharedArray sk =>
      match on_object_proto s !! sk with
      | Some turns =>
          mkState (users s) (<[sk := turns ++ [turn]]> (on_object_proto s))
            (on_array_proto s) (tables s)
      | None => s
      end
  | ArrayProto =>
      mkState (users s) (on_object_proto s) (on_array_proto s ++ [turn])
        (tables s)
  end.

Definition set_tables (d : Database) (s : State) : State :=
  mkState (users s) (on_object_proto s) (on_array_proto s) d.

(** A value read from the request body: an own member, or the array that
    [Object.prototype] holds under the name when the body has no such
    member. *)
Inductive Read : Type :=
  | Own (v : jsval)
  | Inherited (k : string).

(** [const { k } = req.body], for the field names of the four routes (none
    of them a built-in member). *)
Definition read (s : State) (body : jsval) (k : string) : Read :=
  match field body k with
  | JUndefined =>
      match on_object_proto s !! k with
      | Some _ => Inherited k
      | None => Own JUndefined
      end
  | v => Own v
  end.

Definition role_name (r : Role) : string :=
  match r with
  | system => "system"
  | user => "user"
  | assistant => "assistant"
  end.

Definition turn_value (t : Turn) : jsval :=
  JObj [("role", JStr (role_name (role t))); ("content", content t)].

(** The value behind a read, as it stands in state [s]. *)
Definition value (s : State) (r : Read) : jsval :=
  match r with
  | Own v => v
  | Inherited k => JArr (turn_value <$> default [] (on_object_proto s !! k))
  end.

(** An array is truthy whatever it holds. *)
Definition read_truthy (r : Read) : bool :=
  match r with
  | Own v => truthy v
  | Inherited _ => true
  end.

(** ToString of a read, as it stands in state [s]. *)
Definition show (s : State) (r : Read) : string := to_string (value s r).

(** What [conversations[userId]] evaluates to. *)
Inductive UserLookup : Type :=
  | UInner (m : gmap string (list Turn))
  | UObjectProto
  | UMethod
  | UArray (turns : list Turn)
  | UAbsent.

Definition lookup_user (s : State) (uk : string) : UserLookup :=
  match users s !! uk with
  | Some m => UInner m
  | None =>
      if is_proto uk then UObjectProto
      else if is_method uk then UMethod
      else match on_object_proto s !! uk with
           | Some turns => UArray turns
           | None => UAbsent
           end
  end.

(** What [conversations[userId][scenario]] evaluates to: one of the arrays
    of the state; a truthy value that is no array and has no [push] (a
    built-in function, [Object.prototype], a string, a number, a turn);
    nothing, or [null]; or a member of a built-in object that is not
    described here. *)
Inductive Found : Type :=
  | Convo (t : Target)
  | NotArray
  | Missing
  | Unknown.

Definition is_index (k : string) (turns : list Turn) : bool :=
  bool_decide (k ∈ (λ n, pretty (Z.of_nat n)) <$> seq 0 (length turns)).

Definition lookup_scenario (s : State) (uk : string) (u : UserLookup)
    (sk : string) : Found :=
  match u with
  | UInner m =>
      match m !! sk with
      | Some _ => Convo (OwnArray uk sk)
      | None =>
          if is_proto sk || is_method sk then NotArray
          else match on_object_proto s !! sk with
               | Some _ => Convo (SharedArray sk)
               | None => Missing
               end
      end
  | UObjectProto =>
      if is_proto sk then Missing
      else if is_method sk then NotArray
      else match on_object_proto s !! sk with
           | Some _ => Convo (SharedArray sk)
           | None => Missing
           end
  | UMethod => if String.eqb sk "name" then NotArray else Unknown
  | UArray turns =>
      if is_proto sk then Convo ArrayProto
      else if String.eqb sk "length" then
        match turns with [] => Unknown | _ => NotArray end
      else if is_index sk turns then NotArray
      else Unknown
  | UAbsent => Missing
  end.

Definition found (s : State) (uk sk : string) : Found :=
  lookup_scenario s uk (lookup_user s uk) sk.

(** [initializeConversation(userId, scenario)]; [None] where the assignment
    lands on a built-in member (a setter, a method, an array used as a
    map). *)
Definition initializeConversation (uk sk : string) (prompt : string)
    (s : State) : option State :=
  let s1 :=
    match lookup_user s uk with
    | UAbsent =>
        mkState (<[uk := ∅]> (users s)) (on_object_proto s)
          (on_array_proto s) (tables s)
    | _ => s
    end in
  let fresh := [mkTurn system (JStr prompt)] in
  match lookup_user s1 uk with
  | UInner m =>
      if is_proto sk then None
      else Some (mkState (<[uk := <[sk := fresh]> m]> (users s1))
                   (on_object_proto s1) (on_array_proto s1) (tables s1))
  | UObjectProto =>
      if is_proto sk || is_method sk then None
      else Some (mkState (users s1) (<[sk := fresh]> (on_object_proto s1))
                   (on_array_proto s1) (tables s1))
  | _ => None
  end.

(** The locals of the chat handler that live across its [await]. *)
Record Frame : Type := mkFrame {
  fr_userId : Read;
  fr_message : Read;
  fr_scenario : Read;
  fr_draft : Read;
  fr_convo : Target
}.

(** POST /chat up to [await fetch(...)]: answered already; waiting for the
    gateway; rejected, [convo.push] having thrown outside the [try]; or not
    described. *)
Inductive ChatStart : Type :=
  | Answered (r : Response) (s : State)
  | Awaiting (req : GatewayRequest) (k : Frame) (s : State)
  | Rejected (s : State)
  | NotDescribed.

Definition user_text (s : State) (draft message : Read) : string :=
  "Draft:" +:+ nl +:+ show s draft +:+ nl +:+ nl
  +:+ "User request:" +:+ nl +:+ show s message.

Definition audit_text (s : State) (draft message : Read) : string :=
  "Draft:" +:+ nl +:+ show s draft +:+ nl
  +:+ "Request:" +:+ nl +:+ show s message.

Definition chat_begin (body : jsval) (s : State) : ChatStart :=
  let userId := read s body "userId" in
  let message := read s body "message" in
  let scenario := read s body "scenario" in
  let draft := read s body "draft" in
  if negb (read_truthy userId) || negb (read_truthy message)
     || negb (read_truthy scenario)
  then
    Answered (Json 400 (error_body "Missing userId, message, or scenario")) s
  else
    let uk := show s userId in
    let sk := show s scenario in
    let ensured :=
      match found s uk sk with
      | Missing =>
          initializeConversation uk sk (system_prompt (value s scenario)) s
      | Unknown => None
      | _ => Some s
      end in
    match ensured with
    | None => NotDescribed
    | Some s1 =>
        match found s1 uk sk with
        | Convo t =>
            let s2 :=
              push_at t (mkTurn user (JStr (user_text s1 draft message))) s1 in
            Awaiting
              (mkGatewayRequest "llama3" (default [] (array_at s2 t)) false)
              (mkFrame userId message scenario draft t) s2
        | NotArray => Rejected s1
        | _ => NotDescribed
        end
    end.

(** POST /chat from the point where the awaited gateway call has ended. *)
Definition chat_end (e : Env) (k : Frame) (out : GatewayOutcome) (s : State)
    : Response * State :=
  match out with
  | GwThrow _ => (chat_failed, s)
  | GwData data =>
      match reply_of data with
      | None => (chat_failed, s)
      | Some botReply =>
          let s1 := push_at (fr_convo k) (mkTurn assistant botReply) s in
          let timestamp := JStr (now e) in
          match run e (InsertMessage (value s1 (fr_userId k))
                         (value s1 (fr_scenario k)) (JStr "user")
                         (JStr (audit_text s1 (fr_draft k) (fr_message k)))
                         timestamp) (tables s1) with
          | None => (chat_failed, s1)
          | Some d1 =>
              match run e (InsertMessage (value s1 (fr_userId k))
                             (value s1 (fr_scenario k)) (JStr "assistant")
                             botReply timestamp) d1 with
              | None => (chat_failed, set_tables d1 s1)
              | Some d2 =>
                  (Json 200 (JObj [("reply", botReply)]), set_tables d2 s1)
              end
          end
      end
  end.

(** POST /chat served without another request running during the [await];
    [None] where the start is not described. *)
Definition chat_handler (e : Env) (body : jsval) (s : State)
    : option (option Response * State) :=
  match chat_begin body s with
  | Answered r s' => Some (Some r, s')
  | Awaiting req k s' =>
      let (r, s'') := chat_end e k (gateway e req) s' in Some (Some r, s'')
  | Rejected s' => Some (None, s')
  | NotDescribed => None
  end.

(** POST /demographics *)
Definition demographics_handler (e : Env) (body : jsval) (s : State)
    : Response * State :=
  let participant_id := read s body "participant_id" in
  let native_language := read s body "native_language" in
  let english_proficiency := read s body "english_proficiency" in
  let years_in_us := read s body "years_in_us" in
  let ai_usage_frequency := read s body "ai_usage_frequency" in
  if negb (read_truthy participant_id) then
    (Json 400 (error_body "Missing participant_id"), s)
  else
    match run e (InsertOrReplaceDemographics (value s participant_id)
                   (value s native_language) (value s english_proficiency)
                   (value s years_in_us) (value s ai_usage_frequency))
            (tables s) with
    | Some d => (saved, set_tables d s)
    | None => (Unhandled, s)
    end.

(** POST /survey-response *)
Definition survey_response_handler (e : Env) (body : jsval) (s : State)
    : Response * State :=
  let participant_id := read s body "participant_id" in
  let scenario := read s body "scenario" in
  let draft_text := read s body "draft_text" in
  let used_ai_self_report := read s body "used_ai_self_report" in
  let used_ai_behavioral := read s body "used_ai_behavioral" in
  let perceived_risk := read s body "perceived_risk" in
  let authenticity := read s body "authenticity" in
  if negb (read_truthy participant_id) || negb (read_truthy scenario) then
    (Json 400 (error_body "Missing required fields"), s)
  else
    match run e (InsertSurveyResponse (value s participant_id)
                   (value s scenario) (value s draft_text)
                   (value s used_ai_self_report)
                   (if read_truthy used_ai_behavioral then JNum 1 else JNum 0)
                   (value s perceived_risk) (value s authenticity)
                   (JStr (now e))) (tables s) with
    | Some d => (saved, set_tables d s)
    | None => (Unhandled, s)
    end.

(** POST /save-draft *)
Definition save_draft_handler (e : Env) (body : jsval) (s : State)
    : Response * State :=
  let participant_id := read s body "participant_id" in
  let scenario := read s body "scenario" in
  let draft_text := read s body "draft_text" in
  if negb (read_truthy participant_id) || negb (read_truthy scenario)
     || negb (read_truthy draft_text) then
    (Json 400 (error_body "Missing required fields"), s)
  else
    match run e (InsertFinalDraft (value s participant_id) (value s scenario)
                   (value s draft_text) (JStr (now e))) (tables s) with
    | Some d => (saved, set_tables d s)
    | None => (Json 500 (error_body "Failed to save draft"), s)
    end.

(** The answer of a route and the state it leaves; no answer when the chat
    handler is rejected, nothing at all where it is not described. *)
Definition handle (ep : Endpoint) (e : Env) (body : jsval) (s : State)
    : option (option Response * State) :=
  match ep with
  | Demographics =>
      let (r, s') := demographics_handler e body s in Some (Some r, s')
  | SurveyResponse =>
      let (r, s') := survey_response_handler e body s in Some (Some r, s')
  | Chat => chat_handler e body s
  | SaveDraft =>
      let (r, s') := save_draft_handler e body s in Some (Some r, s')
  end.

(** The process at start: [let conversations = {}], the built-in
    prototypes as the language provides them, over the tables of
    [survey.db]. *)
Definition boot (d : Database) : State := mkState ∅ ∅ [] d.

(** One turn of the event loop, with the chat handlers suspended at their
    [await] kept on the side. *)
Inductive step : State * list Frame → State * list Frame → Prop :=
  | step_submission ep e body s fs :
      ep ≠ Chat →
      ∀ r s', handle ep e body s = Some (r, s') → step (s, fs) (s', fs)
  | step_chat_answered body s fs r s' :
      chat_begin body s = Answered r s' → step (s, fs) (s', fs)
  | step_chat_rejected body s fs s' :
      chat_begin body s = Rejected s' → step (s, fs) (s', fs)
  | step_chat_awaiting body s fs req k s' :
      chat_begin body s = Awaiting req k s' → step (s, fs) (s', k :: fs)
  | step_chat_resumed e out k before after s :
      step (s, before ++ k :: after)
        ((chat_end e k out s).2, before ++ after).

(** The states the server reaches from its start by turns that are
    described. *)
Definition reachable (d : Database) (s : State) : Prop :=
  ∃ fs, rtc step (boot d, []) (s, fs).

(** Every array made by [initializeConversation], wherever it is kept,
    opens with the system instruction of the scenario key it is kept
    under. *)
Definition scenario_key (t : Target) : option string :=
  match t with
  | OwnArray _ sk | SharedArray sk => Some sk
  | ArrayProto => None
  end.

Definition seeded (s : State) : Prop :=
  ∀ t sk turns,
    scenario_key t = Some sk → array_at s t = Some turns →
    ∃ scenario rest,
      to_string scenario = sk ∧
      turns = mkTurn system (JStr (system_prompt scenario)) :: rest.



End Chain.

(** ** Requests that reach the prototype chain *)

Module Odd.

Definition chat (userId scenario : string) : jsval :=
  JObj [("userId", JStr userId); ("message", JStr "hi");
        ("scenario", JStr scenario)].


(** Writes an array on [Object.prototype] under [x]. *)
Definition writes_x : jsval := chat "__proto__" "x".



Definition start : Chain.State := Chain.boot Sample.empty_db.

(** The state after the chat request [body] was served from the start with
    the gateway down. *)
Definition after (body : jsval) : Chain.State :=
  match Chain.chat_handler Sample.env_down body start with
  | Some (_, s) => s
  | None => start
  end.

(** The state after [first] and then [second] were served from the start
    with the gateway down. *)
Definition after_two (first second : jsval) : Chain.State :=
  match Chain.chat_handler Sample.env_down second (after first) with
  | Some (_, s) => s
  | None => after first
  end.

End Odd.

(** ** Equality of values *)


Lemma eqb_eq (a b : jsval) : eqb a b = true ↔ a = b.
Proof.
  revert b. induction a as [| | x | x | x | xs IH | xs IH] using jsval_nested_ind;
    intros [| | y | y | y | ys | ys]; simpl; try (split; [discriminate | congruence]);
    try (split; congruence).
  - rewrite Bool.eqb_true_iff. split; congruence.
  - rewrite Z.eqb_eq. split; congruence.
  - rewrite String.eqb_eq. split; congruence.
  - revert ys. induction IH as [| x xs Hx _ IHxs]; intros [| y ys];
      try (split; [discriminate | congruence]); [split; congruence |].
    rewrite andb_true_iff, Hx, IHxs. split.
    + intros [-> Heq]. by inversion Heq.
    + intros Heq. by inversion Heq.
  - revert ys. induction IH as [| [k x] xs Hx _ IHxs]; intros [| [k' y] ys];
      try (split; [discriminate | congruence]); [split; congruence |].
    rewrite !andb_true_iff, String.eqb_eq. simpl in Hx. rewrite Hx, IHxs. split.
    + intros [[-> ->] Heq]. by inversion Heq.
    + intros Heq. by inversion Heq.
Qed.

Lemma eqb_refl (a : jsval) : eqb a a = true.
Proof. by apply eqb_eq. Qed.

(** ** The conversation store *)

Section Store.
Implicit Types (c : Conversations) (userId scenario : jsval) (t : Turn).

Lemma convo_of_with_convo c userId scenario turns :
  convo_of (with_convo userId scenario turns c) userId scenario = Some turns.
Proof.
  unfold convo_of, with_convo. rewrite lookup_insert_eq. simpl.
  by rewrite lookup_insert_eq.
Qed.

Lemma with_convo_again c userId scenario turns turns' :
  with_convo userId scenario turns' (with_convo userId scenario turns c)
  = with_convo userId scenario turns' c.
Proof.
  unfold with_convo. rewrite lookup_insert_eq. simpl.
  by rewrite !insert_insert_eq.
Qed.

Lemma initializeConversation_eq c userId scenario :
  initializeConversation userId scenario c
  = with_convo userId scenario [system_turn scenario] c.
Proof.
  unfold initializeConversation, with_convo, system_turn.
  destruct (c !! to_string userId) as [m |] eqn:Hm; simpl.
  - by rewrite Hm.
  - rewrite lookup_insert_eq. simpl. by rewrite insert_insert_eq.
Qed.

Lemma ensure_present c userId scenario turns :
  convo_of c userId scenario = Some turns → ensure userId scenario c = c.
Proof. unfold ensure. by intros ->. Qed.

Lemma convo_of_ensure c userId scenario :
  convo_of (ensure userId scenario c) userId scenario
  = Some (default [system_turn scenario] (convo_of c userId scenario)).
Proof.
  unfold ensure. destruct (convo_of c userId scenario) as [turns |] eqn:Hc.
  - done.
  - by rewrite initializeConversation_eq, convo_of_with_convo.
Qed.

Lemma push_eq c userId scenario t turns :
  convo_of c userId scenario = Some turns →
  push userId scenario t c = with_convo userId scenario (turns ++ [t]) c.
Proof.
  unfold convo_of, push, with_convo.
  destruct (c !! to_string userId) as [m |]; simpl; [| done].
  by intros ->.
Qed.

Lemma push_absent c userId scenario t :
  convo_of c userId scenario = None → push userId scenario t c = c.
Proof.
  unfold convo_of, push.
  destruct (c !! to_string userId) as [m |]; simpl; [| done].
  by intros ->.
Qed.

Lemma ensure_push c userId scenario t :
  push userId scenario t (ensure userId scenario c)
  = with_convo userId scenario
      (default [system_turn scenario] (convo_of c userId scenario) ++ [t]) c.
Proof.
  rewrite (push_eq _ _ _ _ _ (convo_of_ensure c userId scenario)).
  unfold ensure. destruct (convo_of c userId scenario); simpl; [done |].
  by rewrite initializeConversation_eq, with_convo_again.
Qed.

(** Setting one array leaves the arrays under every other key alone. *)
Lemma with_convo_lookup c userId scenario turns uk sk :
  (with_convo userId scenario turns c !! uk) ≫= (.!! sk)
  = if decide (uk = to_string userId ∧ sk = to_string scenario)
    then Some turns else (c !! uk) ≫= (.!! sk).
Proof.
  unfold with_convo. case_decide as Hk.
  - destruct Hk as [-> ->]. rewrite lookup_insert_eq. simpl.
    by rewrite lookup_insert_eq.
  - destruct (decide (uk = to_string userId)) as [-> | Hu].
    + rewrite lookup_insert_eq. simpl.
      rewrite lookup_insert_ne by naive_solver.
      by destruct (c !! to_string userId).
    + by rewrite lookup_insert_ne.
Qed.
End Store.

(** ** The chat handler, phase by phase *)

Lemma chat_begin_valid body w :
  let userId := field body "userId" in
  let message := field body "message" in
  let scenario := field body "scenario" in
  let draft := field body "draft" in
  chat_valid body →
  chat_begin body w
  = Awaiting
      (mkGatewayRequest "llama3"
         (history w userId scenario ++ [user_turn draft message]) false)
      (mkChatFrame userId message scenario draft)
      (set_conversations
         (with_convo userId scenario
            (history w userId scenario ++ [user_turn draft message])
            (conversations w)) w).
Proof.
  intros userId message scenario draft (Hu & Hm & Hs).
  subst userId message scenario draft. unfold chat_begin.
  rewrite Hu, Hm, Hs. cbn [negb orb].
  rewrite ensure_push. unfold history, user_turn, system_turn.
  by rewrite convo_of_with_convo.
Qed.

Lemma chat_end_failed e k out w :
  gateway_failed out → chat_end e k out w = (chat_failed, w).
Proof. destruct out as [err | data]; simpl; [done |]. by intros ->. Qed.

Lemma chat_end_replied e k data botReply turns w :
  reply_of data = Some botReply →
  store_up e →
  convo_of (conversations w) (cf_userId k) (cf_scenario k) = Some turns →
  chat_end e k (GwData data) w
  = (Json 200 (JObj [("reply", botReply)]),
     mkWorld
       (with_convo (cf_userId k) (cf_scenario k)
          (turns ++ [mkTurn assistant botReply]) (conversations w))
       (with_messages
          [mkMessage (messages_seq (db w) + 1) (cf_userId k) (cf_scenario k)
             (JStr "user") (JStr (user_audit_text (cf_draft k) (cf_message k)))
             (JStr (now e));
           mkMessage (messages_seq (db w) + 2) (cf_userId k) (cf_scenario k)
             (JStr "assistant") botReply (JStr (now e))]
          (db w))).
Proof.
  intros Hr Hup Hc. unfold chat_end, run. rewrite Hr, !Hup.
  rewrite (push_eq _ _ _ _ _ Hc). simpl.
  unfold set_db, with_messages. simpl. rewrite <- app_assoc. simpl.
  replace (messages_seq (db w) + 1 + 1) with (messages_seq (db w) + 2) by lia.
  done.
Qed.

Lemma chat_handler_replied e body w data botReply :
  let userId := field body "userId" in
  let message := field body "message" in
  let scenario := field body "scenario" in
  let draft := field body "draft" in
  chat_valid body →
  gateway e
    (mkGatewayRequest "llama3"
       (history w userId scenario ++ [user_turn draft message]) false)
  = GwData data →
  reply_of data = Some botReply →
  store_up e →
  chat_handler e body w
  = (Json 200 (JObj [("reply", botReply)]),
     mkWorld
       (with_convo userId scenario
          (history w userId scenario
             ++ [user_turn draft message; mkTurn assistant botReply])
          (conversations w))
       (with_messages
          [mkMessage (messages_seq (db w) + 1) userId scenario (JStr "user")
             (JStr (user_audit_text draft message)) (JStr (now e));
           mkMessage (messages_seq (db w) + 2) userId scenario
             (JStr "assistant") botReply (JStr (now e))]
          (db w))).
Proof.
  intros userId message scenario draft Hv Hg Hr Hup. unfold chat_handler.
  rewrite (chat_begin_valid body w Hv).
  fold userId message scenario draft. rewrite Hg.
  erewrite chat_end_replied; [| done | done | apply convo_of_with_convo].
  simpl. by rewrite with_convo_again, <- app_assoc.
Qed.

Lemma chat_handler_failed e body w :
  let userId := field body "userId" in
  let message := field body "message" in
  let scenario := field body "scenario" in
  let draft := field body "draft" in
  chat_valid body →
  gateway_failed
    (gateway e
       (mkGatewayRequest "llama3"
          (history w userId scenario ++ [user_turn draft message]) false)) →
  chat_handler e body w
  = (Json 500 (JObj [("error", JStr "Chat failed")]),
     mkWorld
       (with_convo userId scenario
          (history w userId scenario ++ [user_turn draft message])
          (conversations w))
       (db w)).
Proof.
  intros userId message scenario draft Hv Hg. unfold chat_handler.
  rewrite (chat_begin_valid body w Hv).
  fold userId message scenario draft.
  by rewrite chat_end_failed.
Qed.

(** The handler's continuation either leaves the store alone or pushes one
    assistant turn. *)
Lemma chat_end_conversations e k out w :
  conversations (chat_end e k out w).2 = conversations w ∨
  ∃ botReply,
    conversations (chat_end e k out w).2
    = push (cf_userId k) (cf_scenario k) (mkTurn assistant botReply)
        (conversations w).
Proof.
  unfold chat_end. destruct out as [err | data]; [by left |].
  destruct (reply_of data) as [botReply |]; [| by left].
  right. exists botReply.
  destruct (run e _ _) as [d1 |]; [| done].
  by destruct (run e _ d1).
Qed.

Lemma sample_exchange :
  chat_handler Sample.env_ok Sample.chat_body Sample.fresh
  = (Json 200 (JObj [("reply", JStr "Certainly...")]),
     mkWorld
       (with_convo (JStr "p1") (JStr "email_to_professor")
          [system_turn (JStr "email_to_professor");
           user_turn (JStr "hey can i get extension")
             (JStr "make this more formal");
           mkTurn assistant (JStr "Certainly...")] ∅)
       (with_messages
          [mkMessage 1 (JStr "p1") (JStr "email_to_professor") (JStr "user")
             (JStr (user_audit_text (JStr "hey can i get extension")
                      (JStr "make this more formal")))
             (JStr Sample.clock);
           mkMessage 2 (JStr "p1") (JStr "email_to_professor")
             (JStr "assistant") (JStr "Certainly...") (JStr Sample.clock)]
          Sample.empty_db)).
Proof.
  apply (chat_handler_replied Sample.env_ok Sample.chat_body Sample.fresh
           Sample.gateway_data (JStr "Certainly..."));
    try reflexivity; repeat split; reflexivity.
Qed.

(** ** The two templates *)

Lemma append_cancel (s a b : string) : s +:+ a = s +:+ b → a = b.
Proof. induction s as [| ch s IH]; simpl; [done |]. intros [= H]. auto. Qed.

Lemma templates_differ draft message :
  user_turn_text draft message ≠ user_audit_text draft message.
Proof.
  unfold user_turn_text, user_audit_text. intros H.
  do 3 apply append_cancel in H. discriminate H.
Qed.

(** ** POST /chat *)

Lemma ensure_idempotent c userId scenario :
  ensure userId scenario (ensure userId scenario c) = ensure userId scenario c.
Proof. eapply ensure_present, convo_of_ensure. Qed.

(** C6.  The guard that creates conversations is idempotent, and a chat
    request whose key already has a conversation keeps it: the guard returns
    the store as it is, the turns accumulated so far stay in place, and the
    turns of this request come after them (the user turn, then the assistant
    turn if the exchange gets that far). *)
Theorem existing_conversation_kept e body w turns :
  let userId := field body "userId" in
  let message := field body "message" in
  let scenario := field body "scenario" in
  let draft := field body "draft" in
  chat_valid body →
  convo_of (conversations w) userId scenario = Some turns →
  ensure userId scenario (conversations w) = conversations w ∧
  (∀ c, ensure userId scenario (ensure userId scenario c)
        = ensure userId scenario c) ∧
  (∃ req k w1,
     chat_begin body w = Awaiting req k w1 ∧
     convo_of (conversations w1) userId scenario
     = Some (turns ++ [user_turn draft message])) ∧
  ∃ tail,
    convo_of (conversations (chat_handler e body w).2) userId scenario
    = Some (turns ++ user_turn draft message :: tail) ∧
    (tail = [] ∨ ∃ botReply, tail = [mkTurn assistant botReply]).
Proof.
  intros userId message scenario draft Hv Hc.
  assert (Hh : history w userId scenario = turns) by (unfold history; by rewrite Hc).
  split; [by eapply ensure_present |].
  split; [intros c; apply ensure_idempotent |].
  pose proof (chat_begin_valid body w Hv) as Hb.
  fold userId message scenario draft in Hb. rewrite Hh in Hb.
  split.
  - eexists _, _, _. split; [exact Hb |]. apply convo_of_with_convo.
  - unfold chat_handler. rewrite Hb.
    set (k := mkChatFrame userId message scenario draft).
    set (w1 := set_conversations _ w).
    assert (Hw1 : convo_of (conversations w1) (cf_userId k) (cf_scenario k)
                  = Some (turns ++ [user_turn draft message]))
      by apply convo_of_with_convo.
    destruct (chat_end_conversations e k (gateway e (mkGatewayRequest "llama3"
                (turns ++ [user_turn draft message]) false)) w1)
      as [-> | [botReply ->]].
    + exists []. split; [exact Hw1 | by left].
    + exists [mkTurn assistant botReply]. split; [| right; by exists botReply].
      rewrite (push_eq _ _ _ _ _ Hw1). rewrite convo_of_with_convo.
      by rewrite <- app_assoc.
Qed.

Lemma existing_conversation_kept_witness :
  ∃ tail,
    convo_of
      (conversations
         (chat_handler Sample.env_down Sample.chat_body
            (chat_handler Sample.env_ok Sample.chat_body Sample.fresh).2).2)
      (JStr "p1") (JStr "email_to_professor")
    = Some ([system_turn (JStr "email_to_professor");
             user_turn (JStr "hey can i get extension")
               (JStr "make this more formal");
             mkTurn assistant (JStr "Certainly...")]
            ++ user_turn (JStr "hey can i get extension")
                 (JStr "make this more formal") :: tail) ∧
    (tail = [] ∨ ∃ botReply, tail = [mkTurn assistant botReply]).
Proof.
  apply (existing_conversation_kept Sample.env_down Sample.chat_body
           (chat_handler Sample.env_ok Sample.chat_body Sample.fresh).2).
  - repeat split; reflexivity.
  - rewrite sample_exchange. apply convo_of_with_convo.
Defined.

(** C3, as stated, fails on the sample exchange: the user row written to
    [messages] does not carry the content of the user turn pushed on the
    conversation. *)
Lemma audit_does_not_mirror_user_turn :
  ¬ audit_mirrors
      (chat_handler Sample.env_ok Sample.chat_body Sample.fresh).2
      (JStr "p1") (JStr "email_to_professor").
Proof.
  rewrite sample_exchange.
  intros (turns & u & a & rows & ru & ra & Hc & Hm & Hu & _).
  simpl in Hc, Hm. rewrite convo_of_with_convo in Hc.
  injection Hc as Hc.
  apply (app_inj_2 [system_turn (JStr "email_to_professor")] turns
           [user_turn (JStr "hey can i get extension")
              (JStr "make this more formal");
            mkTurn assistant (JStr "Certainly...")] [u; a] eq_refl)
    in Hc as [_ [= <- _]].
  apply (app_inj_2 [] rows
           [mkMessage 1 (JStr "p1") (JStr "email_to_professor") (JStr "user")
              (JStr (user_audit_text (JStr "hey can i get extension")
                       (JStr "make this more formal")))
              (JStr Sample.clock);
            mkMessage 2 (JStr "p1") (JStr "email_to_professor")
              (JStr "assistant") (JStr "Certainly...") (JStr Sample.clock)]
           [ru; ra] eq_refl)
    in Hm as [_ [= <- _]].
  simpl in Hu.
  apply (templates_differ (JStr "hey can i get extension")
           (JStr "make this more formal")).
  congruence.
Qed.

(** ** What the handlers leave alone *)

Lemma exec_participants s d : participants (exec s d) = participants d.
Proof. by destruct s. Qed.

Lemma run_participants e s d d' :
  run e s d = Some d' → participants d' = participants d.
Proof.
  unfold run. destruct (accepts e s); [| done].
  intros [= <-]. apply exec_participants.
Qed.

Lemma chat_begin_cases body w :
  chat_begin body w
  = Answered (Json 400 (error_body "Missing userId, message, or scenario")) w ∨
  chat_valid body.
Proof.
  unfold chat_begin, chat_valid.
  destruct (truthy (field body "userId")); [| by left].
  destruct (truthy (field body "message")); [| by left].
  destruct (truthy (field body "scenario")); [| by left].
  by right.
Qed.

Lemma chat_end_participants e k out w :
  participants (db (chat_end e k out w).2) = participants (db w).
Proof.
  unfold chat_end. destruct out as [err | data]; [done |].
  destruct (reply_of data) as [botReply |]; [| done]. simpl.
  destruct (run e _ _) as [d1 |] eqn:H1; [| done].
  destruct (run e _ d1) as [d2 |] eqn:H2; simpl.
  - by rewrite (run_participants _ _ _ _ H2), (run_participants _ _ _ _ H1).
  - by rewrite (run_participants _ _ _ _ H1).
Qed.

Lemma handle_participants ep e body w :
  participants (db (handle ep e body w).2) = participants (db w).
Proof.
  destruct ep; simpl.
  - unfold demographics_handler.
    destruct (negb _); [done |].
    destruct (run e _ _) as [d1 |] eqn:H1; [| done].
    apply (run_participants _ _ _ _ H1).
  - unfold survey_response_handler.
    destruct (_ || _); [done |].
    destruct (run e _ _) as [d1 |] eqn:H1; [| done].
    apply (run_participants _ _ _ _ H1).
  - unfold chat_handler.
    destruct (chat_begin_cases body w) as [-> | Hv]; [done |].
    rewrite (chat_begin_valid body w Hv). by rewrite chat_end_participants.
  - unfold save_draft_handler.
    destruct (_ || _); [done |].
    destruct (run e _ _) as [d1 |] eqn:H1; [| done].
    apply (run_participants _ _ _ _ H1).
Qed.

Lemma handle_conversations ep e body w :
  ep ≠ Chat → conversations (handle ep e body w).2 = conversations w.
Proof.
  destruct ep; simpl; [| | done |]; intros _.
  - unfold demographics_handler.
    destruct (negb _); [done |]. by destruct (run e _ _).
  - unfold survey_response_handler.
    destruct (_ || _); [done |]. by destruct (run e _ _).
  - unfold save_draft_handler.
    destruct (_ || _); [done |]. by destruct (run e _ _).
Qed.

(** ** Invariants of the running server *)

Lemma well_seeded_with_convo c userId scenario turns :
  well_seeded c →
  starts_with_system (to_string scenario) turns →
  well_seeded (with_convo userId scenario turns c).
Proof.
  intros Hc Ht uk sk ts. rewrite with_convo_lookup.
  case_decide as Hk; [| apply Hc].
  destruct Hk as [_ ->]. by intros [= <-].
Qed.

Lemma well_seeded_ensure c userId scenario :
  well_seeded c → well_seeded (ensure userId scenario c).
Proof.
  intros Hc. unfold ensure.
  destruct (convo_of c userId scenario); [done |].
  rewrite initializeConversation_eq. apply well_seeded_with_convo; [done |].
  by exists scenario, [].
Qed.

Lemma well_seeded_push c userId scenario t :
  well_seeded c → well_seeded (push userId scenario t c).
Proof.
  intros Hc. destruct (convo_of c userId scenario) as [turns |] eqn:Hk.
  - rewrite (push_eq _ _ _ _ _ Hk). apply well_seeded_with_convo; [done |].
    destruct (Hc _ _ _ Hk) as (sc & rest & Hs & ->).
    by exists sc, (rest ++ [t]).
  - by rewrite push_absent.
Qed.

Lemma chat_begin_world body w :
  ∀ w', (∃ r, chat_begin body w = Answered r w') ∨
        (∃ req k, chat_begin body w = Awaiting req k w') →
  db w' = db w ∧
  (conversations w' = conversations w ∨
   conversations w'
   = push (field body "userId") (field body "scenario")
       (user_turn (field body "draft") (field body "message"))
       (ensure (field body "userId") (field body "scenario") (conversations w))).
Proof.
  intros w'. unfold chat_begin.
  destruct (_ || _).
  - intros [[r [= _ <-]] | (req & k & [=])]. by split; [| left].
  - intros [[r [=]] | (req & k & [= _ _ <-])]. by split; [| right].
Qed.

Lemma step_well_seeded s s' :
  step s s' →
  well_seeded (conversations (world s)) →
  well_seeded (conversations (world s')).
Proof.
  intros Hstep Hs. destruct Hstep as
    [e body s | e body s | e body s | body s r w' Hb | body s req k w' Hb
    | e out k before after s Hin]; simpl.
  - by rewrite (handle_conversations Demographics).
  - by rewrite (handle_conversations SurveyResponse).
  - by rewrite (handle_conversations SaveDraft).
  - destruct (chat_begin_world body (world s) w') as [_ [-> | ->]]; eauto.
    by apply well_seeded_push, well_seeded_ensure.
  - destruct (chat_begin_world body (world s) w') as [_ [-> | ->]]; eauto.
    by apply well_seeded_push, well_seeded_ensure.
  - destruct (chat_end_conversations e k out (world s)) as [-> | [r ->]];
      [done |]. by apply well_seeded_push.
Qed.

Lemma reachable_well_seeded d s :
  reachable d s → well_seeded (conversations (world s)).
Proof.
  unfold reachable. revert s. apply rtc_ind_r.
  - intros uk sk turns. simpl. by rewrite lookup_empty.
  - intros s2 s3 _ Hstep IH. by apply (step_well_seeded s2 s3).
Qed.

(** Serving a chat request with nothing in between is two turns of the
    event loop. *)
Lemma chat_handler_steps e body s :
  rtc step s (mkServer (chat_handler e body (world s)).2 (inflight s)).
Proof.
  unfold chat_handler.
  destruct (chat_begin body (world s)) as [r w' | req k w'] eqn:Hb; simpl.
  - apply rtc_once. by eapply step_chat_answered.
  - eapply rtc_l; [by eapply step_chat_awaiting |].
    apply rtc_once.
    apply (step_chat_resumed e (gateway e req) k [] (inflight s)
             (mkServer w' (k :: inflight s))).
    done.
Qed.

Lemma convo_kept_with_convo c userId scenario turns u s :
  is_Some (convo_of c u s) →
  is_Some (convo_of (with_convo userId scenario turns c) u s).
Proof.
  unfold convo_of. rewrite with_convo_lookup. by case_decide.
Qed.

Lemma convo_kept_ensure c userId scenario u s :
  is_Some (convo_of c u s) → is_Some (convo_of (ensure userId scenario c) u s).
Proof.
  unfold ensure. destruct (convo_of c userId scenario); [done |].
  rewrite initializeConversation_eq. apply convo_kept_with_convo.
Qed.

Lemma convo_kept_push c userId scenario t u s :
  is_Some (convo_of c u s) → is_Some (convo_of (push userId scenario t c) u s).
Proof.
  destruct (convo_of c userId scenario) as [turns |] eqn:Hk.
  - rewrite (push_eq _ _ _ _ _ Hk). apply convo_kept_with_convo.
  - by rewrite push_absent.
Qed.

(** The array a suspended handler holds in [convo] stays in the store, so
    its pushes are always seen through the store. *)
Lemma step_frames_stored s s' : step s s' → frames_stored s → frames_stored s'.
Proof.
  intros Hstep Hs. destruct Hstep as
    [e body s | e body s | e body s | body s r w' Hb | body s req k w' Hb
    | e out k before after s Hin]; intros f Hf; simpl in *.
  - rewrite (handle_conversations Demographics); auto.
  - rewrite (handle_conversations SurveyResponse); auto.
  - rewrite (handle_conversations SaveDraft); auto.
  - destruct (chat_begin_world body (world s) w') as [_ [-> | ->]]; eauto.
    by apply convo_kept_push, convo_kept_ensure, Hs.
  - destruct (chat_begin_cases body (world s)) as [Hb' | Hv];
      [by rewrite Hb' in Hb |].
    rewrite (chat_begin_valid body (world s) Hv) in Hb.
    injection Hb as _ <- <-. simpl.
    apply elem_of_cons in Hf as [-> | Hf].
    + simpl. by rewrite convo_of_with_convo.
    + by apply convo_kept_with_convo, Hs.
  - assert (Hf' : f ∈ inflight s).
    { rewrite Hin.
      apply elem_of_app in Hf as [Hf | Hf];
        rewrite elem_of_app, elem_of_cons; auto. }
    destruct (chat_end_conversations e k out (world s)) as [-> | [r ->]];
      [by apply Hs |]. by apply convo_kept_push, Hs.
Qed.

Lemma reachable_frames_stored d s : reachable d s → frames_stored s.
Proof.
  unfold reachable. revert s. apply rtc_ind_r.
  - intros k Hk. simpl in Hk. by apply elem_of_nil in Hk.
  - intros s2 s3 _ Hstep IH. by apply (step_frames_stored s2 s3).
Qed.

Lemma step_participants s s' :
  step s s' → participants (db (world s')) = participants (db (world s)).
Proof.
  intros Hstep. destruct Hstep as
    [e body s | e body s | e body s | body s r w' Hb | body s req k w' Hb
    | e out k before after s Hin]; simpl.
  - apply (handle_participants Demographics).
  - apply (handle_participants SurveyResponse).
  - apply (handle_participants SaveDraft).
  - destruct (chat_begin_world body (world s) w') as [-> _]; eauto.
  - destruct (chat_begin_world body (world s) w') as [-> _]; eauto.
  - apply chat_end_participants.
Qed.

Lemma reachable_participants d s :
  reachable d s → participants (db (world s)) = participants d.
Proof.
  unfold reachable. revert s. apply rtc_ind_r; [done |].
  intros s2 s3 _ Hstep IH. by rewrite (step_participants s2 s3).
Qed.

(** C4, as stated, fails: a first demographics submission and a first survey
    submission are both saved, and [participants] holds no record of the
    participant afterwards. *)
Lemma first_submission_records_no_participant :
  ¬ ((demographics_handler Sample.env_ok (Sample.demographics_body 4)
        Sample.fresh).1 = saved →
     participant_recorded (JStr "p1")
       (db (demographics_handler Sample.env_ok (Sample.demographics_body 4)
              Sample.fresh).2)) ∧
  ¬ ((survey_response_handler Sample.env_ok Sample.survey_body
        Sample.fresh).1 = saved →
     participant_recorded (JStr "p1")
       (db (survey_response_handler Sample.env_ok Sample.survey_body
              Sample.fresh).2)).
Proof.
  split; intros H; destruct (H eq_refl) as (r & Hr & _);
    simpl in Hr; by apply elem_of_nil in Hr.
Qed.

(** C4, amended.  No operation writes the [participants] collection: in every
    state the server can reach it is what the database held at start, and it
    is the same after any further request as before.  So no record is created
    by a submission, and none is changed or deleted. *)
Theorem participants_never_written d s :
  reachable d s →
  participants (db (world s)) = participants d ∧
  ∀ ep e body,
    participants (db (handle ep e body (world s)).2) = participants d.
Proof.
  intros Hr. pose proof (reachable_participants d s Hr) as Hp.
  split; [done |]. intros ep e body. by rewrite handle_participants.
Qed.

Lemma participants_never_written_witness :
  participants
    (db (handle Demographics Sample.env_ok (Sample.demographics_body 4)
           (world (boot Sample.empty_db))).2)
  = participants Sample.empty_db.
Proof.
  apply (participants_never_written Sample.empty_db (boot Sample.empty_db)).
  unfold reachable. apply rtc_refl.
Defined.

(** ** The synchronous handlers *)

Lemma serve_snoc ep reqs e body w :
  serve ep (reqs ++ [(e, body)]) w = (handle ep e body (serve ep reqs w)).2.
Proof.
  revert w. induction reqs as [| [e' body'] reqs IH]; intros w; simpl; [done |].
  apply IH.
Qed.

(** INSERT OR REPLACE leaves one row under the key, the new one. *)
Lemma replace_leaves_one pid lang prof years freq d :
  demographics_of pid
    (exec (InsertOrReplaceDemographics pid lang prof years freq) d)
  = [mkDemographics pid lang prof years freq].
Proof.
  unfold demographics_of. simpl. rewrite filter_app.
  rewrite filter_cons_True by apply eqb_refl.
  rewrite filter_nil.
  induction (demographics d) as [| r rows IH]; [done |].
  destruct (eqb (dm_participant_id r) pid) eqn:Hr.
  - rewrite (filter_cons_False (λ r, eqb (dm_participant_id r) pid = false))
      by (simpl; congruence).
    apply IH.
  - rewrite (filter_cons_True (λ r, eqb (dm_participant_id r) pid = false))
      by done.
    rewrite filter_cons_False by (simpl; congruence). apply IH.
Qed.

Lemma demographics_saved e body w :
  truthy (field body "participant_id") = true →
  store_up e →
  demographics_handler e body w
  = (saved,
     set_db
       (exec (InsertOrReplaceDemographics (field body "participant_id")
                (field body "native_language")
                (field body "english_proficiency")
                (field body "years_in_us")
                (field body "ai_usage_frequency")) (db w)) w).
Proof.
  intros Hp Hup. unfold demographics_handler, run. by rewrite Hp, Hup.
Qed.

(** C7.  POST /demographics is an upsert by participant id: after any
    sequence of valid submissions under one id, the table holds one row for
    that id, and its columns are the fields of the last submission, taken as
    they are (a field the last submission leaves out is not filled from an
    earlier one). *)
Theorem demographics_upsert pid subs e body w :
  let final := db (serve Demographics (subs ++ [(e, body)]) w) in
  let row :=
    mkDemographics pid (field body "native_language")
      (field body "english_proficiency") (field body "years_in_us")
      (field body "ai_usage_frequency") in
  truthy pid = true →
  (∀ e' body', (e', body') ∈ subs ++ [(e, body)] →
     field body' "participant_id" = pid ∧ store_up e') →
  demographics_of pid final = [row] ∧
  ∀ r, r ∈ demographics final → dm_participant_id r = pid → r = row.
Proof.
  intros final row Hp Hall.
  destruct (Hall e body) as [Hid Hup].
  { rewrite elem_of_app, list_elem_of_singleton. by right. }
  assert (Hone : demographics_of pid final = [row]).
  { subst final row. rewrite serve_snoc. simpl.
    rewrite demographics_saved by (by rewrite ?Hid). simpl.
    rewrite Hid. apply replace_leaves_one. }
  split; [done |]. intros r Hr Hk.
  assert (Hin : r ∈ demographics_of pid final).
  { unfold demographics_of. apply list_elem_of_filter. split; [| done].
    rewrite Hk. apply eqb_refl. }
  rewrite Hone in Hin. by apply list_elem_of_singleton in Hin.
Qed.

Lemma demographics_upsert_witness :
  demographics_of (JStr "p1")
    (db (serve Demographics
           ([(Sample.env_ok, Sample.demographics_body 4)]
            ++ [(Sample.env_ok, Sample.demographics_body 5)]) Sample.fresh))
  = [mkDemographics (JStr "p1") (JStr "es") (JNum 5) (JNum 2) (JNum 3)].
Proof.
  apply (demographics_upsert (JStr "p1")
           [(Sample.env_ok, Sample.demographics_body 4)]
           Sample.env_ok (Sample.demographics_body 5) Sample.fresh).
  - reflexivity.
  - intros e' body' Hin.
    apply elem_of_app in Hin as [Hin | Hin];
      apply list_elem_of_singleton in Hin; injection Hin as -> ->;
      (split; [reflexivity | intros s; reflexivity]).
Defined.



(** ** When the driver throws *)

Lemma passes_chat body : passes Chat body = true ↔ chat_valid body.
Proof.
  unfold passes, chat_valid. simpl. rewrite !andb_true_iff. tauto.
Qed.

(** X1.  When the driver throws on the write of a submission that passed
    validation, nothing is stored.  POST /save-draft catches the error and
    answers status 500 with [{ error: "Failed to save draft" }];
    POST /demographics and POST /survey-response have no handler for it, so
    the error leaves the route and no JSON answer is produced. *)
Theorem submission_write_fails ep e body w :
  ep ≠ Chat →
  passes ep body = true →
  accepts e
    match ep with
    | Demographics => demographics_stmt body
    | SurveyResponse => survey_stmt e body
    | _ => draft_stmt e body
    end = false →
  handle ep e body w
  = (match ep with
     | SaveDraft => Json 500 (JObj [("error", JStr "Failed to save draft")])
     | _ => Unhandled
     end, w).
Proof.
  unfold passes. destruct ep; simpl; [| | done |]; intros _;
    rewrite ?andb_true_iff; intros Hp Ha.
  - destruct Hp as [Hp _]. unfold demographics_handler, run.
    unfold demographics_stmt in Ha. by rewrite Hp, Ha.
  - destruct Hp as (Hp & Hs & _). unfold survey_response_handler, run.
    unfold survey_stmt in Ha. by rewrite Hp, Hs, Ha.
  - destruct Hp as (Hp & Hs & Hd & _). unfold save_draft_handler, run.
    unfold draft_stmt in Ha. by rewrite Hp, Hs, Hd, Ha.
Qed.

Lemma submission_write_fails_witness :
  handle SaveDraft Cases.env_store_down Cases.draft_body Sample.fresh
  = (Json 500 (JObj [("error", JStr "Failed to save draft")]), Sample.fresh).
Proof.
  apply (submission_write_fails SaveDraft Cases.env_store_down Cases.draft_body
           Sample.fresh).
  - discriminate.
  - reflexivity.
  - reflexivity.
Defined.

(** ** What the gateway body decides *)


(** ** Answers and validation *)

Lemma chat_end_answer e k out w :
  (chat_end e k out w).1 = chat_failed ∨
  ∃ botReply, (chat_end e k out w).1 = Json 200 (JObj [("reply", botReply)]).
Proof.
  unfold chat_end. destruct out as [err | data]; [by left |].
  destruct (reply_of data) as [botReply |]; [| by left].
  destruct (run e _ _) as [d1 |]; [| by left].
  destruct (run e _ d1); [right; by exists botReply | by left].
Qed.

(** X4.  A request whose required fields are all truthy is never answered
    with status 400, on any of the four routes and whatever the gateway and
    the driver do: the validation turns away only requests with a missing or
    falsy required field. *)
Theorem valid_request_not_400 ep e body w b :
  passes ep body = true →
  (handle ep e body w).1 ≠ Json 400 b.
Proof.
  intros Hp. destruct ep; simpl.
  - unfold passes in Hp. simpl in Hp. rewrite andb_true_iff in Hp.
    destruct Hp as [Hp _]. unfold demographics_handler. rewrite Hp. simpl.
    by destruct (run e _ _).
  - unfold passes in Hp. simpl in Hp. rewrite !andb_true_iff in Hp.
    destruct Hp as (Hp & Hs & _). unfold survey_response_handler.
    rewrite Hp, Hs. simpl. by destruct (run e _ _).
  - apply passes_chat in Hp. unfold chat_handler.
    rewrite (chat_begin_valid body w Hp).
    destruct (chat_end_answer e
                (mkChatFrame (field body "userId") (field body "message")
                   (field body "scenario") (field body "draft"))
                (gateway e
                   (mkGatewayRequest "llama3"
                      (history w (field body "userId") (field body "scenario")
                         ++ [user_turn (field body "draft")
                               (field body "message")]) false))
                (set_conversations
                   (with_convo (field body "userId") (field body "scenario")
                      (history w (field body "userId") (field body "scenario")
                         ++ [user_turn (field body "draft")
                               (field body "message")])
                      (conversations w)) w))
      as [-> | [r ->]]; discriminate.
  - unfold passes in Hp. simpl in Hp. rewrite !andb_true_iff in Hp.
    destruct Hp as (Hp & Hs & Hd & _). unfold save_draft_handler.
    rewrite Hp, Hs, Hd. simpl. by destruct (run e _ _).
Qed.

Lemma valid_request_not_400_witness :
  passes SaveDraft Cases.draft_body = true ∧
  (handle SaveDraft Cases.env_store_down Cases.draft_body Sample.fresh).1
  ≠ Json 400 (JObj [("error", JStr "Missing required fields")]).
Proof.
  split; [reflexivity |].
  apply (valid_request_not_400 SaveDraft Cases.env_store_down Cases.draft_body
           Sample.fresh).
  reflexivity.
Defined.

(** ** One conversation per key *)

Lemma convo_of_with_convo_cases c userId scenario turns u s :
  convo_of (with_convo userId scenario turns c) u s
  = if decide (to_string u = to_string userId ∧
               to_string s = to_string scenario)
    then Some turns else convo_of c u s.
Proof. unfold convo_of. apply with_convo_lookup. Qed.

Lemma convo_of_same_key (c : Conversations) userId scenario u s :
  to_string u = to_string userId → to_string s = to_string scenario →
  convo_of c u s = convo_of c userId scenario.
Proof. unfold convo_of. by intros -> ->. Qed.

Lemma chat_handler_conversations e body w :
  conversations (chat_handler e body w).2 = conversations w ∨
  ∃ tail,
    conversations (chat_handler e body w).2
    = with_convo (field body "userId") (field body "scenario")
        (history w (field body "userId") (field body "scenario")
           ++ user_turn (field body "draft") (field body "message") :: tail)
        (conversations w).
Proof.
  unfold chat_handler.
  destruct (chat_begin_cases body w) as [-> | Hv]; [by left |].
  rewrite (chat_begin_valid body w Hv). right.
  match goal with
  | |- context [chat_end e ?k ?out ?w1] =>
      destruct (chat_end_conversations e k out w1) as [-> | [r ->]]
  end.
  - by exists [].
  - exists [mkTurn assistant r]. simpl.
    rewrite (push_eq _ _ _ _ _ (convo_of_with_convo _ _ _ _)).
    by rewrite with_convo_again, <- app_assoc.
Qed.

(** ** Conversations only grow *)

Lemma grows_refl c : grows c c.
Proof. intros u s turns H. exists []. by rewrite app_nil_r. Qed.

Lemma grows_trans c1 c2 c3 : grows c1 c2 → grows c2 c3 → grows c1 c3.
Proof.
  intros H12 H23 u s turns H.
  destruct (H12 u s turns H) as [t1 H1].
  destruct (H23 u s _ H1) as [t2 H2].
  exists (t1 ++ t2). by rewrite app_assoc.
Qed.

Lemma grows_with_convo c userId scenario base tail :
  convo_of c userId scenario = base →
  (∀ turns, base = Some turns → ∃ t, tail = turns ++ t) →
  grows c (with_convo userId scenario tail c).
Proof.
  intros Hb Ht u s turns H. rewrite convo_of_with_convo_cases.
  case_decide as Hk.
  - destruct Hk as [Hu Hs].
    rewrite (convo_of_same_key c userId scenario u s Hu Hs), Hb in H.
    destruct (Ht turns H) as [t ->]. by exists t.
  - exists []. by rewrite app_nil_r.
Qed.

Lemma grows_ensure c userId scenario : grows c (ensure userId scenario c).
Proof.
  unfold ensure. destruct (convo_of c userId scenario) eqn:Hc;
    [apply grows_refl |].
  rewrite initializeConversation_eq.
  by apply (grows_with_convo c userId scenario None).
Qed.

Lemma grows_push c userId scenario t : grows c (push userId scenario t c).
Proof.
  destruct (convo_of c userId scenario) as [base |] eqn:Hc.
  - rewrite (push_eq _ _ _ _ _ Hc).
    apply (grows_with_convo c userId scenario (Some base)); [done |].
    intros turns [= <-]. by exists [t].
  - rewrite push_absent by done. apply grows_refl.
Qed.

Lemma step_grows s s' :
  step s s' → grows (conversations (world s)) (conversations (world s')).
Proof.
  intros Hstep. destruct Hstep as
    [e body s | e body s | e body s | body s r w' Hb | body s req k w' Hb
    | e out k before after s Hin]; simpl.
  - rewrite (handle_conversations Demographics) by done. apply grows_refl.
  - rewrite (handle_conversations SurveyResponse) by done. apply grows_refl.
  - rewrite (handle_conversations SaveDraft) by done. apply grows_refl.
  - destruct (chat_begin_world body (world s) w') as [_ [-> | ->]]; eauto;
      [apply grows_refl |].
    eapply grows_trans; [apply grows_ensure | apply grows_push].
  - destruct (chat_begin_world body (world s) w') as [_ [-> | ->]]; eauto;
      [apply grows_refl |].
    eapply grows_trans; [apply grows_ensure | apply grows_push].
  - destruct (chat_end_conversations e k out (world s)) as [-> | [r ->]];
      [apply grows_refl | apply grows_push].
Qed.

(** X7.  Whatever requests the server handles between two of its states,
    in any interleaving and with any outcome, a conversation that is stored
    in the first state is still stored in the second with the same turns in
    the same places, possibly followed by new ones: no turn is ever removed,
    rewritten or reordered, and no conversation is reset. *)
Theorem conversations_only_grow s s' userId scenario turns :
  rtc step s s' →
  convo_of (conversations (world s)) userId scenario = Some turns →
  ∃ tail,
    convo_of (conversations (world s')) userId scenario = Some (turns ++ tail).
Proof.
  intros Hr. revert userId scenario turns.
  change (grows (conversations (world s)) (conversations (world s'))).
  induction Hr as [s | s1 s2 s3 Hstep _ IH]; [apply grows_refl |].
  eapply grows_trans; [by apply step_grows | exact IH].
Qed.

Lemma conversations_only_grow_witness :
  ∃ tail,
    convo_of
      (conversations
         (chat_handler Sample.env_down Cases.second_chat_body
            (chat_handler Sample.env_ok Sample.chat_body Sample.fresh).2).2)
      (JStr "p1") (JStr "email_to_professor")
    = Some ([system_turn (JStr "email_to_professor");
             user_turn (JStr "hey can i get extension")
               (JStr "make this more formal");
             mkTurn assistant (JStr "Certainly...")] ++ tail).
Proof.
  apply (conversations_only_grow
           (mkServer (chat_handler Sample.env_ok Sample.chat_body Sample.fresh).2
              [])
           (mkServer
              (chat_handler Sample.env_down Cases.second_chat_body
                 (chat_handler Sample.env_ok Sample.chat_body
                    Sample.fresh).2).2 [])).
  - apply (chat_handler_steps Sample.env_down Cases.second_chat_body
             (mkServer
                (chat_handler Sample.env_ok Sample.chat_body Sample.fresh).2
                [])).
  - cbn [world]. rewrite sample_exchange. apply convo_of_with_convo.
Defined.

(** ** The tables *)

Lemma run_exec e s d d' : run e s d = Some d' → d' = exec s d.
Proof. unfold run. destruct (accepts e s); [| done]. by intros [= <-]. Qed.

Lemma chat_end_execs e k out w :
  ∃ stmts, db (chat_end e k out w).2 = execs stmts (db w).
Proof.
  unfold chat_end. destruct out as [err | data]; [by exists [] |].
  destruct (reply_of data) as [botReply |]; [| by exists []]. simpl.
  destruct (run e _ _) as [d1 |] eqn:H1; [| by exists []].
  apply run_exec in H1 as ->.
  destruct (run e _ _) as [d2 |] eqn:H2.
  - apply run_exec in H2 as ->. by eexists [_; _].
  - by eexists [_].
Qed.

Lemma handle_execs ep e body w :
  ∃ stmts, db (handle ep e body w).2 = execs stmts (db w).
Proof.
  destruct ep; simpl.
  - unfold demographics_handler. destruct (negb _); [by exists [] |].
    destruct (run e _ _) as [d1 |] eqn:H1; [| by exists []].
    apply run_exec in H1 as ->. by eexists [_].
  - unfold survey_response_handler. destruct (_ || _); [by exists [] |].
    destruct (run e _ _) as [d1 |] eqn:H1; [| by exists []].
    apply run_exec in H1 as ->. by eexists [_].
  - unfold chat_handler.
    destruct (chat_begin_cases body w) as [-> | Hv]; [by exists [] |].
    rewrite (chat_begin_valid body w Hv).
    match goal with
    | |- context [chat_end e ?k ?out ?w1] =>
        destruct (chat_end_execs e k out w1) as [stmts Hs]
    end.
    exists stmts. exact Hs.
  - unfold save_draft_handler. destruct (_ || _); [by exists [] |].
    destruct (run e _ _) as [d1 |] eqn:H1; [| by exists []].
    apply run_exec in H1 as ->. by eexists [_].
Qed.

Lemma step_execs s s' :
  step s s' → ∃ stmts, db (world s') = execs stmts (db (world s)).
Proof.
  intros Hstep. destruct Hstep as
    [e body s | e body s | e body s | body s r w' Hb | body s req k w' Hb
    | e out k before after s Hin]; simpl.
  - apply (handle_execs Demographics).
  - apply (handle_execs SurveyResponse).
  - apply (handle_execs SaveDraft).
  - destruct (chat_begin_world body (world s) w') as [-> _]; eauto.
    by exists [].
  - destruct (chat_begin_world body (world s) w') as [-> _]; eauto.
    by exists [].
  - apply chat_end_execs.
Qed.

Lemma execs_snoc stmts s d : execs (stmts ++ [s]) d = exec s (execs stmts d).
Proof. unfold execs. by rewrite foldl_app. Qed.

(** A property of the tables that every statement keeps is kept by every
    run of the server. *)
Lemma rtc_step_db (P : Database → Database → Prop) :
  (∀ d, P d d) →
  (∀ d1 d2 s, P d1 d2 → P d1 (exec s d2)) →
  ∀ s s', rtc step s s' → P (db (world s)) (db (world s')).
Proof.
  intros Hrefl Hexec s. apply rtc_ind_r; [apply Hrefl |].
  intros s2 s3 _ Hstep IH.
  destruct (step_execs s2 s3 Hstep) as [stmts ->].
  induction stmts as [| st stmts IHs] using rev_ind; [exact IH |].
  rewrite execs_snoc. by apply Hexec.
Qed.

Lemma extends_exec d1 d2 s : extends d1 d2 → extends d1 (exec s d2).
Proof.
  intros ([r1 H1] & [r2 H2] & [r3 H3]).
  destruct s; unfold extends; simpl; rewrite ?H1, ?H2, ?H3, <- ?app_assoc;
    split_and!; by eexists.
Qed.

(** X8.  The tables [messages], [survey_responses] and [final_drafts] are
    append-only: whatever requests the server handles between two of its
    states, each of the three tables in the later state is the table of the
    earlier state followed by the rows added since.  No route deletes,
    rewrites or reorders a stored row of these tables. *)
Theorem tables_append_only s s' :
  rtc step s s' →
  (∃ rows, messages (db (world s')) = messages (db (world s)) ++ rows) ∧
  (∃ rows,
     survey_responses (db (world s'))
     = survey_responses (db (world s)) ++ rows) ∧
  (∃ rows, final_drafts (db (world s')) = final_drafts (db (world s)) ++ rows).
Proof.
  apply (rtc_step_db extends).
  - intros d. repeat split; exists []; by rewrite app_nil_r.
  - intros d1 d2 st. apply extends_exec.
Qed.

Lemma tables_append_only_witness :
  (∃ rows,
     messages
       (db (chat_handler Sample.env_ok Sample.chat_body
              (chat_handler Sample.env_ok Cases.other_chat_body
                 Sample.fresh).2).2)
     = messages
         (db (chat_handler Sample.env_ok Cases.other_chat_body Sample.fresh).2)
       ++ rows) ∧
  (∃ rows,
     survey_responses
       (db (chat_handler Sample.env_ok Sample.chat_body
              (chat_handler Sample.env_ok Cases.other_chat_body
                 Sample.fresh).2).2)
     = survey_responses
         (db (chat_handler Sample.env_ok Cases.other_chat_body Sample.fresh).2)
       ++ rows) ∧
  (∃ rows,
     final_drafts
       (db (chat_handler Sample.env_ok Sample.chat_body
              (chat_handler Sample.env_ok Cases.other_chat_body
                 Sample.fresh).2).2)
     = final_drafts
         (db (chat_handler Sample.env_ok Cases.other_chat_body Sample.fresh).2)
       ++ rows).
Proof.
  apply (tables_append_only
           (mkServer
              (chat_handler Sample.env_ok Cases.other_chat_body Sample.fresh).2
              [])
           (mkServer
              (chat_handler Sample.env_ok Sample.chat_body
                 (chat_handler Sample.env_ok Cases.other_chat_body
                    Sample.fresh).2).2 [])).
  apply (chat_handler_steps Sample.env_ok Sample.chat_body
           (mkServer
              (chat_handler Sample.env_ok Cases.other_chat_body Sample.fresh).2
              [])).
Defined.

(** ** Rows of one exchange *)

(** X11.  Whatever happens to a chat request, the rows it adds to [messages]
    are a prefix of the pair (user row, assistant row) of the exchange: none,
    the user row alone, or the user row followed by the assistant row.  An
    assistant row is never written without the user row of the same request
    right before it, and both carry the same participant, scenario and
    timestamp. *)
Theorem chat_rows_in_order e body w :
  let userId := field body "userId" in
  let scenario := field body "scenario" in
  ∃ botReply rows,
    messages (db (chat_handler e body w).2) = messages (db w) ++ rows ∧
    rows `prefix_of`
      [mkMessage (messages_seq (db w) + 1) userId scenario (JStr "user")
         (JStr (user_audit_text (field body "draft") (field body "message")))
         (JStr (now e));
       mkMessage (messages_seq (db w) + 1 + 1) userId scenario
         (JStr "assistant") botReply (JStr (now e))].
Proof.
  intros userId scenario. unfold chat_handler.
  destruct (chat_begin_cases body w) as [-> | Hv].
  { exists JUndefined, []. split; [by rewrite app_nil_r | apply prefix_nil]. }
  rewrite (chat_begin_valid body w Hv). unfold chat_end.
  destruct (gateway e _) as [err | data].
  { exists JUndefined, []. split; [by rewrite app_nil_r | apply prefix_nil]. }
  destruct (reply_of data) as [botReply |].
  2: { exists JUndefined, []. split; [by rewrite app_nil_r | apply prefix_nil]. }
  exists botReply. unfold run. simpl.
  destruct (accepts e _).
  2: { exists []. split; [by rewrite app_nil_r | apply prefix_nil]. }
  destruct (accepts e _); simpl.
  - eexists [_; _]. split; [by rewrite <- app_assoc | done].
  - eexists [_]. split; [done |]. by eexists [_].
Qed.

Lemma chat_end_other_tables e k out w :
  survey_responses (db (chat_end e k out w).2) = survey_responses (db w) ∧
  demographics (db (chat_end e k out w).2) = demographics (db w) ∧
  final_drafts (db (chat_end e k out w).2) = final_drafts (db w).
Proof.
  unfold chat_end. destruct out as [err | data]; [done |].
  destruct (reply_of data) as [botReply |]; [| done].
  unfold run. simpl. destruct (accepts e _); [| done].
  by destruct (accepts e _).
Qed.

(** X12.  Each route writes its own table and nothing else: the three
    submission routes leave the conversations and [messages] alone, and a
    request to one route leaves the tables of the other routes as they
    are. *)
Theorem route_writes_own_table ep e body w :
  let w' := (handle ep e body w).2 in
  (ep ≠ Chat →
   conversations w' = conversations w ∧
   messages (db w') = messages (db w)) ∧
  (ep ≠ SurveyResponse →
   survey_responses (db w') = survey_responses (db w)) ∧
  (ep ≠ Demographics → demographics (db w') = demographics (db w)) ∧
  (ep ≠ SaveDraft → final_drafts (db w') = final_drafts (db w)).
Proof.
  destruct ep; simpl.
  - unfold demographics_handler, run.
    destruct (negb _); [done |]. by destruct (accepts e _).
  - unfold survey_response_handler, run.
    destruct (_ || _); [done |]. by destruct (accepts e _).
  - unfold chat_handler.
    destruct (chat_begin_cases body w) as [-> | Hv]; [done |].
    rewrite (chat_begin_valid body w Hv).
    match goal with
    | |- context [chat_end e ?k ?out ?w1] =>
        destruct (chat_end_other_tables e k out w1) as (Hs & Hd & Hf)
    end.
    by rewrite Hs, Hd, Hf.
  - unfold save_draft_handler, run.
    destruct (_ || _); [done |]. by destruct (accepts e _).
Qed.

Lemma route_writes_own_table_witness :
  conversations
    (handle SurveyResponse Sample.env_ok Sample.survey_body
       (chat_handler Sample.env_ok Sample.chat_body Sample.fresh).2).2
  = conversations (chat_handler Sample.env_ok Sample.chat_body Sample.fresh).2 ∧
  messages
    (db (handle SurveyResponse Sample.env_ok Sample.survey_body
           (chat_handler Sample.env_ok Sample.chat_body Sample.fresh).2).2)
  = messages (db (chat_handler Sample.env_ok Sample.chat_body Sample.fresh).2).
Proof.
  apply (route_writes_own_table SurveyResponse Sample.env_ok Sample.survey_body
           (chat_handler Sample.env_ok Sample.chat_body Sample.fresh).2).
  discriminate.
Defined.

(** ** Counting rows *)

Lemma handle_stored ep e body w :
  ep = SurveyResponse ∨ ep = SaveDraft →
  stored ep (db (handle ep e body w).2)
  = (stored ep (db w) + if lands ep (e, body) then 1 else 0)%nat.
Proof.
  unfold lands, passes.
  intros [-> | ->]; simpl.
  - unfold survey_response_handler, run, survey_stmt.
    destruct (truthy (field body "participant_id")); simpl; [| lia].
    destruct (truthy (field body "scenario")); simpl; [| lia].
    destruct (accepts e _); simpl; [| lia].
    by rewrite length_app.
  - unfold save_draft_handler, run, draft_stmt.
    destruct (truthy (field body "participant_id")); simpl; [| lia].
    destruct (truthy (field body "scenario")); simpl; [| lia].
    destruct (truthy (field body "draft_text")); simpl; [| lia].
    destruct (accepts e _); simpl; [| lia].
    by rewrite length_app.
Qed.

(** X13.  After any list of requests to POST /survey-response (or to
    POST /save-draft), the table of the route has grown by the number of
    requests that passed the validation and whose write the driver completed:
    a rejected or failed request adds no row and does not disturb the ones
    after it. *)
Theorem rows_count_landed ep reqs w :
  ep = SurveyResponse ∨ ep = SaveDraft →
  stored ep (db (serve ep reqs w))
  = (stored ep (db w) + length (filter (λ r, lands ep r = true) reqs))%nat.
Proof.
  intros Hep. revert w.
  induction reqs as [| [e body] reqs IH]; intros w; simpl; [lia |].
  rewrite IH, (handle_stored ep e body w Hep).
  destruct (lands ep (e, body)) eqn:Hl.
  - rewrite filter_cons_True by done. simpl. lia.
  - rewrite filter_cons_False by (simpl; congruence). lia.
Qed.

Lemma rows_count_landed_witness :
  stored SaveDraft
    (db (serve SaveDraft
           [(Sample.env_ok, Cases.draft_body);
            (Sample.env_ok, Sample.no_id_body);
            (Cases.env_store_down, Cases.draft_body);
            (Sample.env_ok, Cases.draft_body)] Sample.fresh))
  = 2%nat.
Proof.
  apply (rows_count_landed SaveDraft
           [(Sample.env_ok, Cases.draft_body);
            (Sample.env_ok, Sample.no_id_body);
            (Cases.env_store_down, Cases.draft_body);
            (Sample.env_ok, Cases.draft_body)] Sample.fresh).
  by right.
Defined.

(** ** Handlers suspended at their await *)

Lemma chat_end_pushes e k data botReply w :
  reply_of data = Some botReply →
  conversations (chat_end e k (GwData data) w).2
  = push (cf_userId k) (cf_scenario k) (mkTurn assistant botReply)
      (conversations w).
Proof.
  intros Hr. unfold chat_end. rewrite Hr.
  destruct (run e _ _) as [d1 |]; [| done].
  by destruct (run e _ d1).
Qed.

(** X17.  The array a suspended chat handler holds is never replaced while it
    waits: in every state the server can reach, each handler awaiting its
    gateway call still finds its conversation in the store, and when its call
    returns with a reply, that reply is appended as one assistant turn after
    whatever the conversation holds by then, whether or not the audit rows
    can be written. *)
Theorem suspended_handler_appends d s k e data botReply :
  reachable d s →
  k ∈ inflight s →
  reply_of data = Some botReply →
  ∃ turns,
    convo_of (conversations (world s)) (cf_userId k) (cf_scenario k)
    = Some turns ∧
    convo_of (conversations (chat_end e k (GwData data) (world s)).2)
      (cf_userId k) (cf_scenario k)
    = Some (turns ++ [mkTurn assistant botReply]).
Proof.
  intros Hr Hk Hreply.
  destruct (reachable_frames_stored d s Hr k Hk) as [turns Hc].
  exists turns. split; [done |].
  rewrite (chat_end_pushes e k data botReply _ Hreply).
  rewrite (push_eq _ _ _ _ _ Hc). apply convo_of_with_convo.
Qed.

Lemma suspended_handler_appends_witness :
  ∃ turns,
    convo_of
      (conversations
         (mkWorld
            (with_convo (JStr "p1") (JStr "email_to_professor")
               [system_turn (JStr "email_to_professor");
                user_turn (JStr "hey can i get extension")
                  (JStr "make this more formal")] ∅)
            Sample.empty_db))
      (JStr "p1") (JStr "email_to_professor")
    = Some turns ∧
    convo_of
      (conversations
         (chat_end Cases.env_store_down
            (mkChatFrame (JStr "p1") (JStr "make this more formal")
               (JStr "email_to_professor") (JStr "hey can i get extension"))
            (GwData Sample.gateway_data)
            (mkWorld
               (with_convo (JStr "p1") (JStr "email_to_professor")
                  [system_turn (JStr "email_to_professor");
                   user_turn (JStr "hey can i get extension")
                     (JStr "make this more formal")] ∅)
               Sample.empty_db)).2)
      (JStr "p1") (JStr "email_to_professor")
    = Some (turns ++ [mkTurn assistant (JStr "Certainly...")]).
Proof.
  apply (suspended_handler_appends Sample.empty_db
           (mkServer
              (mkWorld
                 (with_convo (JStr "p1") (JStr "email_to_professor")
                    [system_turn (JStr "email_to_professor");
                     user_turn (JStr "hey can i get extension")
                       (JStr "make this more formal")] ∅)
                 Sample.empty_db)
              [mkChatFrame (JStr "p1") (JStr "make this more formal")
                 (JStr "email_to_professor") (JStr "hey can i get extension")])
           (mkChatFrame (JStr "p1") (JStr "make this more formal")
              (JStr "email_to_professor") (JStr "hey can i get extension"))
           Cases.env_store_down Sample.gateway_data (JStr "Certainly...")).
  - unfold reachable. apply rtc_once.
    apply (step_chat_awaiting Sample.chat_body (boot Sample.empty_db)
             (mkGatewayRequest "llama3"
                [system_turn (JStr "email_to_professor");
                 user_turn (JStr "hey can i get extension")
                   (JStr "make this more formal")] false)).
    apply (chat_begin_valid Sample.chat_body Sample.fresh).
    repeat split; reflexivity.
  - apply list_elem_of_singleton. reflexivity.
  - reflexivity.
Defined.

(** ** The store with its prototype chain: arrays *)

Lemma found_convo_array s uk sk t :
  Chain.found s uk sk = Chain.Convo t → is_Some (Chain.array_at s t).
Proof.
  unfold Chain.found, Chain.lookup_user, Chain.lookup_scenario.
  destruct (Chain.users s !! uk) as [m |] eqn:Hu.
  - destruct (m !! sk) as [turns |] eqn:Hm.
    + intros [= <-]. simpl. rewrite Hu. simpl. by rewrite Hm.
    + destruct (_ || _); [done |].
      destruct (Chain.on_object_proto s !! sk) eqn:Hp; [| done].
      intros [= <-]. simpl. by rewrite Hp.
  - destruct (Chain.is_proto uk).
    { destruct (Chain.is_proto sk); [done |].
      destruct (Chain.is_method sk); [done |].
      destruct (Chain.on_object_proto s !! sk) eqn:Hp; [| done].
      intros [= <-]. simpl. by rewrite Hp. }
    destruct (Chain.is_method uk).
    { by destruct (String.eqb sk "name"). }
    destruct (Chain.on_object_proto s !! uk) as [turns |]; [| done].
    destruct (Chain.is_proto sk); [by intros [= <-] |].
    destruct (String.eqb sk "length"); [by destruct turns |].
    by destruct (Chain.is_index sk turns).
Qed.

Lemma array_at_push s t turn turns :
  Chain.array_at s t = Some turns →
  Chain.array_at (Chain.push_at t turn s) t = Some (turns ++ [turn]).
Proof.
  destruct t as [uk sk | sk |]; simpl.
  - destruct (Chain.users s !! uk) as [m |] eqn:Hu; simpl; [| done].
    intros Hm. rewrite Hm. simpl. rewrite lookup_insert_eq. simpl.
    by rewrite lookup_insert_eq.
  - intros Hp. rewrite Hp. simpl. by rewrite lookup_insert_eq.
  - by intros [= <-].
Qed.

Lemma array_at_push_other s t t' turn :
  t' ≠ t →
  Chain.array_at (Chain.push_at t turn s) t' = Chain.array_at s t'.
Proof.
  intros Hne. destruct t as [uk sk | sk |]; simpl.
  - destruct (Chain.users s !! uk) as [m |] eqn:Hu; [| done].
    destruct (m !! sk) as [turns |] eqn:Hm; [| done].
    destruct t' as [uk' sk' | sk' |]; simpl; [| done ..].
    destruct (decide (uk' = uk)) as [-> | Hk].
    + rewrite lookup_insert_eq, Hu. simpl.
      rewrite lookup_insert_ne; [done | congruence].
    + by rewrite lookup_insert_ne.
  - destruct (Chain.on_object_proto s !! sk) as [turns |] eqn:Hp; [| done].
    destruct t' as [uk' sk' | sk' |]; simpl; [done | | done].
    rewrite lookup_insert_ne; [done | congruence].
  - by destruct t'.
Qed.

Lemma tables_push s t turn :
  Chain.tables (Chain.push_at t turn s) = Chain.tables s.
Proof.
  destruct t as [uk sk | sk |]; simpl; [| | done].
  - destruct (Chain.users s !! uk) as [m |]; [| done].
    by destruct (m !! sk).
  - by destruct (Chain.on_object_proto s !! sk).
Qed.


Lemma chain_end_replied e k data botReply s :
  reply_of data = Some botReply →
  store_up e →
  let s1 := Chain.push_at (Chain.fr_convo k) (mkTurn assistant botReply) s in
  Chain.chat_end e k (GwData data) s
  = (Json 200 (JObj [("reply", botReply)]),
     Chain.set_tables
       (with_messages
          [mkMessage (messages_seq (Chain.tables s) + 1)
             (Chain.value s1 (Chain.fr_userId k))
             (Chain.value s1 (Chain.fr_scenario k)) (JStr "user")
             (JStr (Chain.audit_text s1 (Chain.fr_draft k)
                      (Chain.fr_message k)))
             (JStr (now e));
           mkMessage (messages_seq (Chain.tables s) + 2)
             (Chain.value s1 (Chain.fr_userId k))
             (Chain.value s1 (Chain.fr_scenario k)) (JStr "assistant")
             botReply (JStr (now e))]
          (Chain.tables s)) s1).
Proof.
  intros Hr Hup s1. unfold Chain.chat_end, run. rewrite Hr, !Hup.
  cbv zeta. fold s1.
  assert (Ht : Chain.tables s1 = Chain.tables s) by apply tables_push.
  unfold Chain.set_tables, with_messages. simpl. rewrite Ht.
  rewrite <- app_assoc. simpl.
  replace (messages_seq (Chain.tables s) + 1 + 1)
    with (messages_seq (Chain.tables s) + 2) by lia.
  done.
Qed.

(** What [initializeConversation] does when the guard of the chat handler
    calls it. *)
Lemma initialize_missing s uk sk prompt s1 :
  Chain.found s uk sk = Chain.Missing →
  Chain.initializeConversation uk sk prompt s = Some s1 →
  ∃ t,
    Chain.found s1 uk sk = Chain.Convo t ∧
    Chain.scenario_key t = Some sk ∧
    Chain.array_at s t = None ∧
    Chain.array_at s1 t = Some [mkTurn system (JStr prompt)] ∧
    (∀ t', t' ≠ t → Chain.array_at s1 t' = Chain.array_at s t') ∧
    Chain.tables s1 = Chain.tables s ∧
    (∀ k turns, Chain.on_object_proto s !! k = Some turns →
                Chain.on_object_proto s1 !! k = Some turns).
Proof.
  unfold Chain.found, Chain.initializeConversation, Chain.lookup_user.
  destruct (Chain.users s !! uk) as [m |] eqn:Hu.
  - (* an own user object *)
    simpl. rewrite ?Hu.
    destruct (m !! sk) as [turns |] eqn:Hm; [done |].
    destruct (Chain.is_proto sk) eqn:Hp; [done |].
    destruct (Chain.is_method sk) eqn:Hmeth; [done |]. simpl.
    destruct (Chain.on_object_proto s !! sk) eqn:Ho; [done |].
    intros _ [= <-]. exists (Chain.OwnArray uk sk). simpl.
    rewrite !lookup_insert_eq. simpl. rewrite !lookup_insert_eq.
    rewrite Hu. simpl. split_and!; try done.
    intros [uk' sk' | sk' |] Hne; simpl; try done.
    destruct (decide (uk' = uk)) as [-> | Hk].
    + rewrite lookup_insert_eq, Hu. simpl.
      rewrite lookup_insert_ne; [done | congruence].
    + by rewrite lookup_insert_ne.
  - destruct (Chain.is_proto uk) eqn:Hpu.
    + (* Object.prototype itself *)
      simpl. rewrite ?Hu, ?Hpu.
      destruct (Chain.is_proto sk) eqn:Hp; [done |].
      destruct (Chain.is_method sk) eqn:Hmeth; [done |]. simpl.
      destruct (Chain.on_object_proto s !! sk) eqn:Ho; [done |].
      intros _ [= <-]. exists (Chain.SharedArray sk). simpl.
      rewrite ?Hu, ?Hpu, ?Hp, ?Hmeth, ?lookup_insert_eq.
      split_and!; try done.
      * unfold Chain.lookup_scenario. simpl.
        by rewrite Hp, Hmeth, lookup_insert_eq.
      * intros [uk' sk' | sk' |] Hne; simpl; try done.
        rewrite lookup_insert_ne; [done | congruence].
      * intros k turns Hk.
        rewrite lookup_insert_ne; [done | intros ->; congruence].
    + destruct (Chain.is_method uk) eqn:Hmu.
      { simpl. by destruct (String.eqb sk "name"). }
      destruct (Chain.on_object_proto s !! uk) as [turns |] eqn:Hou.
      { simpl. destruct (Chain.is_proto sk); [done |].
        destruct (String.eqb sk "length"); [by destruct turns |].
        by destruct (Chain.is_index sk turns). }
      (* no such user yet *)
      simpl. rewrite lookup_insert_eq.
      destruct (Chain.is_proto sk) eqn:Hp; [done |].
      intros _ [= <-]. exists (Chain.OwnArray uk sk). simpl.
      rewrite !lookup_insert_eq. simpl. rewrite !lookup_insert_eq.
      rewrite Hu. simpl. split_and!; try done.
      intros [uk' sk' | sk' |] Hne; simpl; try done.
      destruct (decide (uk' = uk)) as [-> | Hk].
      * rewrite lookup_insert_eq, Hu. simpl.
        rewrite lookup_insert_ne; [| congruence]. by rewrite lookup_empty.
      * by rewrite !lookup_insert_ne.
Qed.

Lemma read_value_stable s s1 body k :
  (∀ k turns, Chain.on_object_proto s !! k = Some turns →
              Chain.on_object_proto s1 !! k = Some turns) →
  Chain.value s1 (Chain.read s body k) = Chain.value s (Chain.read s body k).
Proof.
  intros Hmono. unfold Chain.read.
  destruct (field body k); try done.
  destruct (Chain.on_object_proto s !! k) as [turns |] eqn:Hk; [| done].
  simpl. by rewrite Hk, (Hmono _ _ Hk).
Qed.


(** The chat handler at its [await]: the array it holds is one that was
    there, or the one just made, and the request carries it with the user
    turn pushed. *)
Lemma chain_begin_awaiting body s req k s2 :
  let userId := Chain.read s body "userId" in
  let message := Chain.read s body "message" in
  let scenario := Chain.read s body "scenario" in
  let draft := Chain.read s body "draft" in
  let turn := mkTurn user (JStr (Chain.user_text s draft message)) in
  Chain.chat_begin body s = Chain.Awaiting req k s2 →
  k = Chain.mkFrame userId message scenario draft (Chain.fr_convo k) ∧
  Chain.read_truthy userId = true ∧
  Chain.read_truthy message = true ∧
  Chain.read_truthy scenario = true ∧
  req = mkGatewayRequest "llama3" (gw_messages req) false ∧
  Chain.tables s2 = Chain.tables s ∧
  (∀ t', t' ≠ Chain.fr_convo k →
         Chain.array_at s2 t' = Chain.array_at s t') ∧
  (∀ k turns, Chain.on_object_proto s !! k = Some turns →
              ∃ turns', Chain.on_object_proto s2 !! k = Some turns') ∧
  ∃ prev,
    gw_messages req = prev ++ [turn] ∧
    Chain.array_at s2 (Chain.fr_convo k) = Some (prev ++ [turn]) ∧
    (Chain.array_at s (Chain.fr_convo k) = Some prev ∨
     Chain.array_at s (Chain.fr_convo k) = None ∧
     Chain.scenario_key (Chain.fr_convo k) = Some (Chain.show s scenario) ∧
     prev = [mkTurn system (JStr (system_prompt (Chain.value s scenario)))]).
Proof.
  intros userId message scenario draft turn. unfold Chain.chat_begin.
  fold userId message scenario draft.
  destruct (Chain.read_truthy userId) eqn:Hu; [| done].
  destruct (Chain.read_truthy message) eqn:Hm; [| done].
  destruct (Chain.read_truthy scenario) eqn:Hs; [| done].
  cbn [negb orb].
  set (uk := Chain.show s userId). set (sk := Chain.show s scenario).
  assert (Hshared : ∀ t turns' (s0 : Chain.State) a,
            Chain.array_at s0 t = Some a →
            ∀ k turns, Chain.on_object_proto s0 !! k = Some turns →
              ∃ x, Chain.on_object_proto (Chain.push_at t turns' s0) !! k
                   = Some x).
  { intros [uk' sk' | sk' |] turns' s0 a Ha k0 turns0 Hk0; simpl in *.
    - destruct (Chain.users s0 !! uk') as [m |]; [| eauto].
      destruct (m !! sk'); eauto.
    - rewrite Ha. simpl. destruct (decide (k0 = sk')) as [-> | Hne].
      + rewrite lookup_insert_eq. eauto.
      + rewrite lookup_insert_ne by done. eauto.
    - eauto. }
  destruct (Chain.found s uk sk) as [t | | |] eqn:Hf; [| | | done].
  - (* the array is there *)
    rewrite Hf. intros [= <- <- <-]. simpl.
    destruct (found_convo_array s uk sk t Hf) as [prev Hprev].
    rewrite (array_at_push s t _ prev Hprev). simpl.
    split_and!; try done.
    + apply tables_push.
    + intros t' Hne. by apply array_at_push_other.
    + intros k0 turns0 Hk0. by eapply Hshared.
    + exists prev. split_and!; try done. by left.
  - rewrite Hf. done.
  - (* the array is made now *)
    destruct (Chain.initializeConversation uk sk _ s) as [s1 |] eqn:Hi;
      [| done].
    destruct (initialize_missing s uk sk _ s1 Hf Hi)
      as (t & Hf1 & Hkey & Hnone & Hnew & Hother & Htab & Hmono).
    rewrite Hf1. intros [= <- <- <-]. simpl.
    rewrite (array_at_push s1 t _ _ Hnew). simpl.
    assert (Htext : Chain.user_text s1 draft message
                    = Chain.user_text s draft message).
    { unfold Chain.user_text, Chain.show, draft, message.
      by rewrite !(read_value_stable s s1 body _ Hmono). }
    rewrite Htext. split_and!; try done.
    + by rewrite tables_push.
    + intros t' Hne. rewrite array_at_push_other by done. by apply Hother.
    + intros k0 turns0 Hk0. eapply Hshared; [exact Hnew | by eapply Hmono].
    + exists [mkTurn system (JStr (system_prompt (Chain.value s scenario)))].
      split; [done |]. split; [done |]. right. by split_and!.
Qed.

(** ** POST /chat over the prototype chain *)






Lemma array_at_set_tables d s t :
  Chain.array_at (Chain.set_tables d s) t = Chain.array_at s t.
Proof. by destruct t. Qed.

Lemma templates_differ_own s s' draft message message' :
  Chain.audit_text s' (Chain.Own draft) message'
  ≠ Chain.user_text s (Chain.Own draft) message.
Proof.
  unfold Chain.audit_text, Chain.user_text, Chain.show. simpl. intros H.
  do 3 apply append_cancel in H. discriminate H.
Qed.

(** C3, amended.  After a chat exchange in which the gateway call returned
    a text reply, the array of the request ends with the user turn and the
    assistant turn, and [messages] ends with two new rows: the assistant row
    carries the text of the assistant turn, while the user row is built from
    the draft and the message under another fixed template
    ([Draft:\n<draft>\nRequest:\n<message>], the turn being
    [Draft:\n<draft>\n\nUser request:\n<message>]); with the draft read from
    the body itself, the two contents are never equal. *)
Theorem audit_rows_of_text_reply e body s req k s1 data text :
  let message := Chain.read s body "message" in
  let draft := Chain.read s body "draft" in
  let convo := Chain.fr_convo k in
  let final := (Chain.chat_end e k (GwData data) s1).2 in
  Chain.chat_begin body s = Chain.Awaiting req k s1 →
  reply_of data = Some (JStr text) →
  store_up e →
  ∃ prev u a ru ra,
    Chain.array_at final convo = Some (prev ++ [u; a]) ∧
    messages (Chain.tables final) = messages (Chain.tables s) ++ [ru; ra] ∧
    content u = JStr (Chain.user_text s draft message) ∧
    msg_content ru = JStr (Chain.audit_text final draft message) ∧
    (∀ d, draft = Chain.Own d → msg_content ru ≠ content u) ∧
    content a = JStr text ∧
    msg_content ra = JStr text.
Proof.
  intros message draft convo final Hb Hr Hup.
  destruct (chain_begin_awaiting body s req k s1 Hb)
    as (Hk & _ & _ & _ & _ & Htab & _ & _ & prev & _ & Hs1 & _).
  pose proof (f_equal Chain.fr_message Hk) as Hkm.
  pose proof (f_equal Chain.fr_draft Hk) as Hkd.
  simpl in Hkm, Hkd. fold message in Hkm. fold draft in Hkd.
  subst final. rewrite (chain_end_replied e k data (JStr text) s1 Hr Hup).
  cbn [snd]. eexists prev, _, _, _, _. split_and!.
  - rewrite array_at_set_tables.
    rewrite (array_at_push s1 (Chain.fr_convo k) _ _ Hs1).
    by rewrite <- app_assoc.
  - simpl. by rewrite Htab.
  - done.
  - simpl. by rewrite Hkm, Hkd.
  - intros d Hd Hc. simpl in Hc. rewrite Hkd in Hc.
    assert (E : ∀ a b : string, JStr a = JStr b → a = b) by congruence.
    apply E in Hc. subst draft message. rewrite Hd in Hc.
    exact (templates_differ_own _ _ _ _ _ Hc).
  - done.
  - done.
Qed.

Lemma audit_rows_of_text_reply_witness :
  ∃ prev u a ru ra,
    Chain.array_at (Chain.chat_end Sample.env_ok
                      (Chain.mkFrame (Chain.Own (JStr "p1"))
                         (Chain.Own (JStr "make this more formal"))
                         (Chain.Own (JStr "email_to_professor"))
                         (Chain.Own (JStr "hey can i get extension"))
                         (Chain.OwnArray "p1" "email_to_professor"))
                      (GwData Sample.gateway_data)
                      (Odd.after Sample.chat_body)).2
      (Chain.OwnArray "p1" "email_to_professor")
    = Some (prev ++ [u; a]) ∧
    msg_content ru ≠ content u ∧
    content a = JStr "Certainly..." ∧
    msg_content ra = JStr "Certainly...".
Proof.
  destruct (audit_rows_of_text_reply Sample.env_ok Sample.chat_body Odd.start
              (mkGatewayRequest "llama3"
                 [system_turn (JStr "email_to_professor");
                  user_turn (JStr "hey can i get extension")
                    (JStr "make this more formal")] false)
              (Chain.mkFrame (Chain.Own (JStr "p1"))
                 (Chain.Own (JStr "make this more formal"))
                 (Chain.Own (JStr "email_to_professor"))
                 (Chain.Own (JStr "hey can i get extension"))
                 (Chain.OwnArray "p1" "email_to_professor"))
              (Odd.after Sample.chat_body) Sample.gateway_data "Certainly..."
              eq_refl eq_refl (λ _, eq_refl))
    as (prev & u & a & ru & ra & Harr & _ & _ & _ & Hne & Ha & Hra).
  exists prev, u, a, ru, ra. split_and!; try done.
  by apply (Hne (JStr "hey can i get extension")).
Defined.

(** ** Reachable states over the prototype chain *)

Lemma chain_begin_unmoved body s s' :
  (∃ r, Chain.chat_begin body s = Chain.Answered r s') ∨
  Chain.chat_begin body s = Chain.Rejected s' →
  s' = s.
Proof.
  unfold Chain.chat_begin. destruct (_ || _).
  { intros [[r [= _ <-]] | [=]]. done. }
  destruct (Chain.found s _ _) as [t | | |] eqn:Hf.
  - rewrite Hf. by intros [[r [=]] | [=]].
  - rewrite Hf. intros [[r [=]] | [= <-]]. done.
  - destruct (Chain.initializeConversation _ _ _ s) as [s1 |] eqn:Hi.
    + destruct (initialize_missing s _ _ _ s1 Hf Hi) as (t & -> & _).
      by intros [[r [=]] | [=]].
    + by intros [[r [=]] | [=]].
  - by intros [[r [=]] | [=]].
Qed.

Lemma push_absent_at s t turn :
  Chain.array_at s t = None → Chain.push_at t turn s = s.
Proof.
  destruct t as [uk sk | sk |]; simpl; [| by intros -> | done].
  destruct (Chain.users s !! uk) as [m |]; simpl; [| done]. by intros ->.
Qed.

Lemma seeded_push s t turn :
  Chain.seeded s → Chain.seeded (Chain.push_at t turn s).
Proof.
  intros Hs. destruct (Chain.array_at s t) as [old |] eqn:Hold.
  - intros t' sk turns Hkey.
    destruct (decide (t' = t)) as [-> | Hne].
    + rewrite (array_at_push s t turn old Hold). intros [= <-].
      destruct (Hs t sk old Hkey Hold) as (sc & rest & Hsc & ->).
      by exists sc, (rest ++ [turn]).
    + rewrite array_at_push_other by done. by apply Hs.
  - by rewrite push_absent_at.
Qed.

Lemma seeded_set_tables s d :
  Chain.seeded s → Chain.seeded (Chain.set_tables d s).
Proof.
  intros Hs t sk turns Hkey. rewrite array_at_set_tables. by apply Hs.
Qed.

Lemma seeded_chat_end e k out s :
  Chain.seeded s → Chain.seeded (Chain.chat_end e k out s).2.
Proof.
  intros Hs. unfold Chain.chat_end. destruct out as [err | data]; [done |].
  destruct (reply_of data) as [botReply |]; [| done].
  pose proof (seeded_push s (Chain.fr_convo k) (mkTurn assistant botReply) Hs).
  destruct (run e _ _) as [d1 |]; [| done].
  destruct (run e _ d1); by apply seeded_set_tables.
Qed.

Lemma seeded_submission ep e body s r s' :
  ep ≠ Chat → Chain.handle ep e body s = Some (r, s') →
  Chain.seeded s → Chain.seeded s'.
Proof.
  intros Hep Hh Hs. destruct ep; simpl in Hh; [| | done |].
  - unfold Chain.demographics_handler in Hh. destruct (negb _).
    + by injection Hh as _ <-.
    + destruct (run e _ _); injection Hh as _ <-;
        [by apply seeded_set_tables | done].
  - unfold Chain.survey_response_handler in Hh. destruct (_ || _).
    + by injection Hh as _ <-.
    + destruct (run e _ _); injection Hh as _ <-;
        [by apply seeded_set_tables | done].
  - unfold Chain.save_draft_handler in Hh. destruct (_ || _).
    + by injection Hh as _ <-.
    + destruct (run e _ _); injection Hh as _ <-;
        [by apply seeded_set_tables | done].
Qed.

Lemma seeded_awaiting body s req k s' :
  Chain.chat_begin body s = Chain.Awaiting req k s' →
  Chain.seeded s → Chain.seeded s'.
Proof.
  intros Hb Hs.
  destruct (chain_begin_awaiting body s req k s' Hb)
    as (_ & _ & _ & _ & _ & _ & Hother & _ & prev & _ & Hs' & Hprev).
  intros t sk turns Hkey.
  destruct (decide (t = Chain.fr_convo k)) as [-> | Hne].
  - rewrite Hs'. intros [= <-].
    destruct Hprev as [Hp | (_ & Hkey' & ->)].
    + destruct (Hs _ sk prev Hkey Hp) as (sc & rest & Hsc & ->).
      by eexists sc, (rest ++ [_]).
    + rewrite Hkey in Hkey'. injection Hkey' as ->.
      by eexists (Chain.value s (Chain.read s body "scenario")), [_].
  - rewrite Hother by done. by apply Hs.
Qed.

Lemma step_seeded x y : Chain.step x y → Chain.seeded x.1 → Chain.seeded y.1.
Proof.
  intros Hstep. destruct Hstep as
    [ep e body s fs Hep r s' Hh | body s fs r s' Hb | body s fs s' Hb
    | body s fs req k s' Hb | e out k before after s]; simpl.
  - by eapply seeded_submission.
  - by rewrite (chain_begin_unmoved body s s') by (left; eauto).
  - by rewrite (chain_begin_unmoved body s s') by (by right).
  - by eapply seeded_awaiting.
  - apply seeded_chat_end.
Qed.

Lemma reachable_seeded d s : Chain.reachable d s → Chain.seeded s.
Proof.
  intros [fs Hr].
  cut (∀ y, rtc Chain.step (Chain.boot d, []) y → Chain.seeded y.1).
  { intros H. exact (H _ Hr). }
  apply rtc_ind_r.
  - intros [uk sk | sk |] k turns Hkey; by simpl.
  - intros y z _ Hstep IH. by apply (step_seeded y z).
Qed.













(** ** More on the chat handler over the prototype chain *)

(** X2.  The audit rows of a chat exchange are written one by one, after
    the assistant turn is pushed and without a transaction.  When the gateway
    call has returned a readable reply: if the driver throws on the user row,
    the answer is status 500 [Chat failed], no row is written, and the
    assistant turn stays pushed; if it throws on the assistant row only, the
    answer is the same and the user row stays in [messages] on its own. *)
Theorem audit_write_fails e k data botReply s turns :
  let s1 := Chain.push_at (Chain.fr_convo k) (mkTurn assistant botReply) s in
  let user_row :=
    InsertMessage (Chain.value s1 (Chain.fr_userId k))
      (Chain.value s1 (Chain.fr_scenario k)) (JStr "user")
      (JStr (Chain.audit_text s1 (Chain.fr_draft k) (Chain.fr_message k)))
      (JStr (now e)) in
  let assistant_row :=
    InsertMessage (Chain.value s1 (Chain.fr_userId k))
      (Chain.value s1 (Chain.fr_scenario k)) (JStr "assistant") botReply
      (JStr (now e)) in
  reply_of data = Some botReply →
  Chain.array_at s (Chain.fr_convo k) = Some turns →
  Chain.array_at s1 (Chain.fr_convo k)
  = Some (turns ++ [mkTurn assistant botReply]) ∧
  (accepts e user_row = false →
   Chain.chat_end e k (GwData data) s
   = (Json 500 (JObj [("error", JStr "Chat failed")]), s1)) ∧
  (accepts e user_row = true →
   accepts e assistant_row = false →
   Chain.chat_end e k (GwData data) s
   = (Json 500 (JObj [("error", JStr "Chat failed")]),
      Chain.set_tables (exec user_row (Chain.tables s)) s1)).
Proof.
  intros s1 user_row assistant_row Hr Ha.
  split; [by apply array_at_push |].
  assert (Ht : Chain.tables s1 = Chain.tables s) by apply tables_push.
  unfold Chain.chat_end, run. rewrite Hr. cbv zeta.
  fold s1. fold user_row. fold assistant_row. rewrite Ht.
  split.
  - by intros ->.
  - by intros -> ->.
Qed.

Lemma audit_write_fails_witness :
  (Chain.chat_end Cases.env_second_write_fails
     (Chain.mkFrame (Chain.Own (JStr "p1"))
        (Chain.Own (JStr "make this more formal"))
        (Chain.Own (JStr "email_to_professor"))
        (Chain.Own (JStr "hey can i get extension"))
        (Chain.OwnArray "p1" "email_to_professor"))
     (GwData Sample.gateway_data) (Odd.after Sample.chat_body)).1
  = Json 500 (JObj [("error", JStr "Chat failed")]).
Proof.
  rewrite (proj2 (proj2
             (audit_write_fails Cases.env_second_write_fails
                (Chain.mkFrame (Chain.Own (JStr "p1"))
                   (Chain.Own (JStr "make this more formal"))
                   (Chain.Own (JStr "email_to_professor"))
                   (Chain.Own (JStr "hey can i get extension"))
                   (Chain.OwnArray "p1" "email_to_professor"))
                Sample.gateway_data (JStr "Certainly...")
                (Odd.after Sample.chat_body)
                [system_turn (JStr "email_to_professor");
                 user_turn (JStr "hey can i get extension")
                   (JStr "make this more formal")]
                eq_refl eq_refl)) eq_refl eq_refl).
  reflexivity.
Defined.



(** X6.  A chat request changes at most one array: whatever its outcome,
    every array other than the one its keys resolve to is the same after the
    request as before.  (What another pair of keys resolves to can still
    change, when the array is one that other objects inherit.) *)
Theorem chat_changes_one_array e body s r s' :
  Chain.chat_handler e body s = Some (r, s') →
  ∃ t, ∀ t', t' ≠ t → Chain.array_at s' t' = Chain.array_at s t'.
Proof.
  unfold Chain.chat_handler.
  destruct (Chain.chat_begin body s) as [r0 s0 | req k s0 | s0 |] eqn:Hb;
    [| | | done].
  - intros [= _ <-]. exists Chain.ArrayProto. intros t' _.
    by rewrite (chain_begin_unmoved body s s0) by (left; eauto).
  - destruct (chain_begin_awaiting body s req k s0 Hb)
      as (_ & _ & _ & _ & _ & _ & Hother & _).
    destruct (Chain.chat_end e k (gateway e req) s0) as [r1 s1] eqn:He.
    intros [= _ <-]. exists (Chain.fr_convo k). intros t' Hne.
    rewrite <- (Hother t' Hne).
    replace s1 with (Chain.chat_end e k (gateway e req) s0).2
      by (by rewrite He).
    unfold Chain.chat_end. destruct (gateway e req) as [err | data]; [done |].
    destruct (reply_of data) as [botReply |]; [| done].
    destruct (run e _ _) as [d1 |]; simpl.
    + destruct (run e _ d1); simpl;
        by rewrite array_at_set_tables, array_at_push_other.
    + by rewrite array_at_push_other.
  - intros [= _ <-]. exists Chain.ArrayProto. intros t' _.
    by rewrite (chain_begin_unmoved body s s0) by (by right).
Qed.

Lemma chat_changes_one_array_witness :
  ∃ t, ∀ t', t' ≠ t →
    Chain.array_at (Odd.after Odd.writes_x) t' = Chain.array_at Odd.start t'.
Proof.
  apply (chat_changes_one_array Sample.env_down Odd.writes_x Odd.start
           (Some chat_failed)).
  reflexivity.
Defined.

Lemma array_after_reply e k data botReply s turns :
  reply_of data = Some botReply →
  store_up e →
  Chain.array_at s (Chain.fr_convo k) = Some turns →
  Chain.array_at (Chain.chat_end e k (GwData data) s).2 (Chain.fr_convo k)
  = Some (turns ++ [mkTurn assistant botReply]) ∧
  ∃ ru ra,
    messages (Chain.tables (Chain.chat_end e k (GwData data) s).2)
    = messages (Chain.tables s) ++ [ru; ra].
Proof.
  intros Hr Hup Ha. rewrite (chain_end_replied e k data botReply s Hr Hup).
  cbn [snd]. rewrite array_at_set_tables. split; [by apply array_at_push |].
  by eexists _, _.
Qed.

Lemma awaiting_same_array body s req k s1 turns :
  Chain.chat_begin body s = Chain.Awaiting req k s1 →
  Chain.array_at s (Chain.fr_convo k) = Some turns →
  ∃ c,
    gw_messages req = turns ++ [mkTurn user c] ∧
    Chain.array_at s1 (Chain.fr_convo k) = Some (turns ++ [mkTurn user c]) ∧
    Chain.tables s1 = Chain.tables s.
Proof.
  intros Hb Ha.
  destruct (chain_begin_awaiting body s req k s1 Hb)
    as (_ & _ & _ & _ & _ & Htab & _ & _ & prev & Hsent & Hs1 & Hprev).
  destruct Hprev as [Hp | (Hn & _)]; [| congruence].
  rewrite Ha in Hp. injection Hp as <-. by eexists.
Qed.



(** X15.  In every state the server reaches, the body a chat request posts
    to the gateway names the model [llama3] with streaming off and its
    message list ends with the user turn of this very request; and when the
    request resolves to an array made by [initializeConversation] (not to
    [Array.prototype]), the list opens with the system instruction of the
    scenario the array is kept under. *)
Theorem gateway_request_form d s body req k s1 :
  Chain.reachable d s →
  Chain.chat_begin body s = Chain.Awaiting req k s1 →
  model req = "llama3" ∧
  stream req = false ∧
  last (gw_messages req)
  = Some (mkTurn user
            (JStr (Chain.user_text s (Chain.read s body "draft")
                     (Chain.read s body "message")))) ∧
  ∀ sk,
    Chain.scenario_key (Chain.fr_convo k) = Some sk →
    ∃ scenario rest,
      to_string scenario = sk ∧
      gw_messages req = mkTurn system (JStr (system_prompt scenario)) :: rest.
Proof.
  intros Hr Hb.
  destruct (chain_begin_awaiting body s req k s1 Hb)
    as (_ & _ & _ & _ & Hreq & _ & _ & _ & prev & Hsent & Hs1 & _).
  rewrite Hreq. simpl. split; [done |]. split; [done |].
  split; [rewrite Hsent; apply last_snoc |].
  intros sk Hkey. rewrite <- Hsent in Hs1.
  exact (seeded_awaiting body s req k s1 Hb (reachable_seeded d s Hr)
           _ sk _ Hkey Hs1).
Qed.

Lemma gateway_request_form_witness :
  ∃ scenario rest,
    to_string scenario = "email_to_professor" ∧
    [system_turn (JStr "email_to_professor");
     user_turn (JStr "hey can i get extension") (JStr "make this more formal")]
    = mkTurn system (JStr (system_prompt scenario)) :: rest.
Proof.
  refine (proj2 (proj2 (proj2
            (gateway_request_form Sample.empty_db Odd.start Sample.chat_body
               (mkGatewayRequest "llama3"
                  [system_turn (JStr "email_to_professor");
                   user_turn (JStr "hey can i get extension")
                     (JStr "make this more formal")] false)
               (Chain.mkFrame (Chain.Own (JStr "p1"))
                  (Chain.Own (JStr "make this more formal"))
                  (Chain.Own (JStr "email_to_professor"))
                  (Chain.Own (JStr "hey can i get extension"))
                  (Chain.OwnArray "p1" "email_to_professor"))
               (Odd.after Sample.chat_body) _ eq_refl)))
            "email_to_professor" eq_refl).
  exists []. apply rtc_refl.
Defined.

(** X16.  Two chat requests that resolve to the same array and whose
    gateway calls overlap: the second request starts while the first is
    awaiting, so its gateway call is sent what the first was sent followed by
    its own user turn; the assistant turns are pushed as the calls return, so
    when the first call returns before the second the array ends with the two
    user turns followed by the two assistant turns. *)
Theorem overlapping_chat_exchanges e1 e2 body1 body2 s req1 k1 s1 req2 k2 s2
    data1 data2 reply1 reply2 :
  Chain.chat_begin body1 s = Chain.Awaiting req1 k1 s1 →
  Chain.chat_begin body2 s1 = Chain.Awaiting req2 k2 s2 →
  Chain.fr_convo k2 = Chain.fr_convo k1 →
  reply_of data1 = Some reply1 →
  reply_of data2 = Some reply2 →
  store_up e1 →
  store_up e2 →
  ∃ c,
    gw_messages req2 = gw_messages req1 ++ [mkTurn user c] ∧
    Chain.array_at
      (Chain.chat_end e2 k2 (GwData data2)
         (Chain.chat_end e1 k1 (GwData data1) s2).2).2 (Chain.fr_convo k1)
    = Some (gw_messages req1
              ++ [mkTurn user c; mkTurn assistant reply1;
                  mkTurn assistant reply2]).
Proof.
  intros Hb1 Hb2 Hsame Hr1 Hr2 Hup1 Hup2.
  destruct (chain_begin_awaiting body1 s req1 k1 s1 Hb1)
    as (_ & _ & _ & _ & _ & _ & _ & _ & prev & Hsent1 & Hs1 & _).
  rewrite <- Hsent1, <- Hsame in Hs1.
  destruct (awaiting_same_array body2 s1 req2 k2 s2 _ Hb2 Hs1)
    as (c & Hsent2 & Hs2 & _).
  rewrite Hsame in Hs2.
  destruct (array_after_reply e1 k1 data1 reply1 s2 _ Hr1 Hup1 Hs2)
    as (Hs3 & _).
  rewrite <- Hsame in Hs3.
  destruct (array_after_reply e2 k2 data2 reply2 _ _ Hr2 Hup2 Hs3)
    as (Hs4 & _).
  exists c. split; [done |]. rewrite <- Hsame, Hs4.
  by rewrite <- !app_assoc.
Qed.

Lemma overlapping_chat_exchanges_witness :
  ∃ c,
    [system_turn (JStr "email_to_professor");
     user_turn (JStr "hey can i get extension") (JStr "make this more formal");
     user_turn (JStr "hello") (JStr "shorter please")]
    = [system_turn (JStr "email_to_professor");
       user_turn (JStr "hey can i get extension")
         (JStr "make this more formal")] ++ [mkTurn user c] ∧
    Chain.array_at
      (Chain.chat_end Sample.env_ok
         (Chain.mkFrame (Chain.Own (JStr "p1"))
            (Chain.Own (JStr "shorter please"))
            (Chain.Own (JStr "email_to_professor")) (Chain.Own (JStr "hello"))
            (Chain.OwnArray "p1" "email_to_professor"))
         (GwData Sample.gateway_data)
         (Chain.chat_end Sample.env_ok
            (Chain.mkFrame (Chain.Own (JStr "p1"))
               (Chain.Own (JStr "make this more formal"))
               (Chain.Own (JStr "email_to_professor"))
               (Chain.Own (JStr "hey can i get extension"))
               (Chain.OwnArray "p1" "email_to_professor"))
            (GwData Sample.gateway_data)
            (Odd.after_two Sample.chat_body Cases.second_chat_body)).2).2
      (Chain.OwnArray "p1" "email_to_professor")
    = Some ([system_turn (JStr "email_to_professor");
             user_turn (JStr "hey can i get extension")
               (JStr "make this more formal")]
            ++ [mkTurn user c; mkTurn assistant (JStr "Certainly...");
                mkTurn assistant (JStr "Certainly...")]).
Proof.
  apply (overlapping_chat_exchanges Sample.env_ok Sample.env_ok
           Sample.chat_body Cases.second_chat_body Odd.start
           (mkGatewayRequest "llama3"
              [system_turn (JStr "email_to_professor");
               user_turn (JStr "hey can i get extension")
                 (JStr "make this more formal")] false)
           (Chain.mkFrame (Chain.Own (JStr "p1"))
              (Chain.Own (JStr "make this more formal"))
              (Chain.Own (JStr "email_to_professor"))
              (Chain.Own (JStr "hey can i get extension"))
              (Chain.OwnArray "p1" "email_to_professor"))
           (Odd.after Sample.chat_body)
           (mkGatewayRequest "llama3"
              [system_turn (JStr "email_to_professor");
               user_turn (JStr "hey can i get extension")
                 (JStr "make this more formal");
               user_turn (JStr "hello") (JStr "shorter please")] false)
           (Chain.mkFrame (Chain.Own (JStr "p1"))
              (Chain.Own (JStr "shorter please"))
              (Chain.Own (JStr "email_to_professor")) (Chain.Own (JStr "hello"))
              (Chain.OwnArray "p1" "email_to_professor"))
           (Odd.after_two Sample.chat_body Cases.second_chat_body)
           Sample.gateway_data Sample.gateway_data (JStr "Certainly...")
           (JStr "Certainly..."));
    try reflexivity; intros st; reflexivity.
Defined.

(** X5.  [initializeConversation], where its assignment lands on a user
    object or on [Object.prototype], sets one array to the system turn alone,
    whatever that array held before (only the guard of the chat handler keeps
    it from discarding a history), and leaves every other array and the tables
    as they are. *)
Theorem initializeConversation_sets_one_array uk sk prompt s s1 :
  Chain.initializeConversation uk sk prompt s = Some s1 →
  ∃ t,
    Chain.scenario_key t = Some sk ∧
    Chain.array_at s1 t = Some [mkTurn system (JStr prompt)] ∧
    (∀ t', t' ≠ t → Chain.array_at s1 t' = Chain.array_at s t') ∧
    Chain.tables s1 = Chain.tables s.
Proof.
  unfold Chain.initializeConversation, Chain.lookup_user.
  destruct (Chain.users s !! uk) as [m |] eqn:Hu.
  - rewrite ?Hu. destruct (Chain.is_proto sk); [done |].
    intros [= <-]. exists (Chain.OwnArray uk sk). simpl.
    rewrite lookup_insert_eq. simpl. rewrite lookup_insert_eq.
    split_and!; try done.
    intros [uk' sk' | sk' |] Hne; simpl; try done.
    destruct (decide (uk' = uk)) as [-> | Hk].
    + rewrite lookup_insert_eq, Hu. simpl.
      rewrite lookup_insert_ne; [done | congruence].
    + by rewrite lookup_insert_ne.
  - destruct (Chain.is_proto uk) eqn:Hpu.
    + rewrite ?Hu, ?Hpu. destruct (_ || _); [done |].
      intros [= <-]. exists (Chain.SharedArray sk). simpl.
      rewrite lookup_insert_eq. split_and!; try done.
      intros [uk' sk' | sk' |] Hne; simpl; try done.
      rewrite lookup_insert_ne; [done | congruence].
    + destruct (Chain.is_method uk) eqn:Hmu.
      { by rewrite ?Hu, ?Hpu, ?Hmu. }
      destruct (Chain.on_object_proto s !! uk) as [turns |] eqn:Hou.
      { by rewrite ?Hu, ?Hpu, ?Hmu, ?Hou. }
      simpl. rewrite lookup_insert_eq.
      destruct (Chain.is_proto sk); [done |].
      intros [= <-]. exists (Chain.OwnArray uk sk). simpl.
      rewrite !lookup_insert_eq. simpl. rewrite lookup_insert_eq.
      split_and!; try done.
      intros [uk' sk' | sk' |] Hne; simpl; try done.
      destruct (decide (uk' = uk)) as [-> | Hk].
      * rewrite lookup_insert_eq, Hu. simpl.
        rewrite lookup_insert_ne; [| congruence]. by rewrite lookup_empty.
      * by rewrite !lookup_insert_ne.
Qed.

Lemma initializeConversation_sets_one_array_witness :
  ∃ t,
    Chain.scenario_key t = Some "email_to_professor" ∧
    Chain.array_at
      (default Odd.start
         (Chain.initializeConversation "p1" "email_to_professor" "again"
            (Odd.after Sample.chat_body))) t
    = Some [mkTurn system (JStr "again")] ∧
    (∀ t', t' ≠ t →
       Chain.array_at
         (default Odd.start
            (Chain.initializeConversation "p1" "email_to_professor" "again"
               (Odd.after Sample.chat_body))) t'
       = Chain.array_at (Odd.after Sample.chat_body) t') ∧
    Chain.tables
      (default Odd.start
         (Chain.initializeConversation "p1" "email_to_professor" "again"
            (Odd.after Sample.chat_body)))
    = Chain.tables (Odd.after Sample.chat_body).
Proof.
  apply (initializeConversation_sets_one_array "p1" "email_to_professor"
           "again" (Odd.after Sample.chat_body)).
  reflexivity.
Defined.
